(** * KCM data export: the row aggregator and the enum metadata extractor

    A shallow embedding of [exportscript.py].  The script reads two result
    sets from a Guacamole/KCM database (the enum columns of the schema and a
    five-way LEFT JOIN over connections) and reshapes them into one JSON
    document.  The two result sets are the inputs of the model; the document
    handed to [json.dump] is its output.

    Python values are modelled by their types as the MySQL connector delivers
    them: a nullable VARCHAR column is [option string] ([None] is Python's
    [None]), an INT column is [Z], a [dict] is an association list in
    insertion order (the order [json.dump] and [dict.values()] follow). *)

From Stdlib Require Import ZArith List String Ascii Bool Lia DecimalString.
Import ListNotations.

Local Open Scope string_scope.
Local Open Scope list_scope.

Set Implicit Arguments.

(** ** Python primitives used by the script *)

Module Py.

(** Truth value of a nullable string: [None] and [''] are falsy. *)
Definition truthy (x : option string) : bool :=
  match x with
  | Some s => negb (s =? "")%string
  | None => false
  end.

(** [x or d] where [x] is a nullable string and [d] a string. *)
Definition or_else (x : option string) (d : string) : string :=
  match x with
  | Some s => if (s =? "")%string then d else s
  | None => d
  end.

(** [str(n)] / [f"{n}"] for an [int]. *)
Definition str_of_int (n : Z) : string :=
  NilZero.string_of_int (Z.to_int n).

(** [==] on nullable values. *)
Definition opt_eqb {A : Type} (eqb : A -> A -> bool) (x y : option A) : bool :=
  match x, y with
  | Some a, Some b => eqb a b
  | None, None => true
  | _, _ => false
  end.

(** [x in l] for a list of nullable strings. *)
Definition contains (x : option string) (l : list (option string)) : bool :=
  existsb (opt_eqb String.eqb x) l.

(** [c in chars]. *)
Fixpoint char_in (c : ascii) (chars : string) : bool :=
  match chars with
  | EmptyString => false
  | String d rest => (c =? d)%char || char_in c rest
  end.

(** [s.lstrip(chars)]: drop the leading characters that belong to [chars]. *)
Fixpoint lstrip (chars : string) (s : string) : string :=
  match s with
  | EmptyString => EmptyString
  | String c rest => if char_in c chars then lstrip chars rest else s
  end.

(** [s.rstrip(chars)]: drop the trailing characters that belong to [chars]. *)
Fixpoint rstrip (chars : string) (s : string) : string :=
  match s with
  | EmptyString => EmptyString
  | String c rest =>
      match rstrip chars rest with
      | EmptyString => if char_in c chars then EmptyString else String c EmptyString
      | kept => String c kept
      end
  end.

(** [s.strip(chars)]. *)
Definition strip (chars : string) (s : string) : string :=
  rstrip chars (lstrip chars s).

(** [s.replace(old, new)] for a one-character [old]. *)
Fixpoint replace (old : ascii) (new : string) (s : string) : string :=
  match s with
  | EmptyString => EmptyString
  | String c rest =>
      if (c =? old)%char then (new ++ replace old new rest)%string
      else String c (replace old new rest)
  end.

(** [s.split(sep)] for a one-character [sep]; never returns the empty
    list (['' .split(',')] is [['']]). *)
Fixpoint split (sep : ascii) (s : string) : list string :=
  match s with
  | EmptyString => [EmptyString]
  | String c rest =>
      if (c =? sep)%char then EmptyString :: split sep rest
      else match split sep rest with
           | piece :: pieces => String c piece :: pieces
           | [] => [String c EmptyString]
           end
  end.

End Py.

(** ** Python dictionaries: association lists in insertion order *)

Section Dict.

Variables K V : Type.
Variable eqb : K -> K -> bool.

Definition dict := list (K * V).

(** [k in d] *)
Definition dict_mem (k : K) (d : dict) : bool :=
  existsb (fun kv => eqb k (fst kv)) d.

(** [d[k]] when present *)
Fixpoint dict_get (k : K) (d : dict) : option V :=
  match d with
  | [] => None
  | (k', v) :: d' => if eqb k k' then Some v else dict_get k d'
  end.

(** [d[k] = v]: an existing key keeps its position, a new key goes last. *)
Fixpoint dict_set (k : K) (v : V) (d : dict) : dict :=
  match d with
  | [] => [(k, v)]
  | (k', v') :: d' =>
      if eqb k k' then (k', v) :: d' else (k', v') :: dict_set k v d'
  end.

(** In-place mutation of the object stored under [k]. *)
Fixpoint dict_update (k : K) (f : V -> V) (d : dict) : dict :=
  match d with
  | [] => []
  | (k', v) :: d' =>
      if eqb k k' then (k', f v) :: d' else (k', v) :: dict_update k f d'
  end.

(** [list(d.keys())] and [list(d.values())] *)
Definition dict_keys (d : dict) : list K := map fst d.
Definition dict_values (d : dict) : list V := map snd d.

End Dict.

(** ** Data model *)

(** One row of the join query ([cursor(dictionary=True)]): the keys are the
    column aliases of the SELECT list.  [connection_id] is the primary key of
    the driving table and is never NULL; every other column is nullable,
    either by declaration or through a LEFT JOIN. *)
Module Row.
Record t := mk {
  connection_id : Z;
  name : option string;
  protocol : option string;
  parameter_name : option string;
  parameter_value : option string;
  attribute_name : option string;
  attribute_value : option string;
  connection_group_id : option Z;
  group_name : option string;
  entity_name : option string;
  entity_type : option string
}.
End Row.

(** The connection object built at lines 121-129. *)
Module Connection.
Record t := mk {
  connection_id : Z;
  name : string;
  protocol : string;
  parameters : dict string (option string);
  attributes : dict string (option string);
  users : list (option string);
  groups : list (option string)
}.
End Connection.

(** The group object built at lines 111-114. *)
Module Group.
Record t := mk {
  group_name : string;
  connections : list Connection.t
}.
End Group.

(** The local variable [groups]: a dict from group id ([None] for NULL) to
    group object. *)
Definition Groups := dict (option Z) Group.t.

Definition group_id_eqb : option Z -> option Z -> bool := Py.opt_eqb Z.eqb.

(** ** The row aggregator ([export_to_json], lines 105-146) *)

(** Predicate of the generator at line 117. *)
Definition has_id (conn_id : Z) (c : Connection.t) : bool :=
  (Connection.connection_id c =? conn_id)%Z.

(** Lines 121-129: the fresh connection object. *)
Definition new_connection (row : Row.t) : Connection.t :=
  let conn_id := Row.connection_id row in
  {| Connection.connection_id := conn_id;
     Connection.name :=
       Py.or_else (Row.name row) ("Unnamed Connection " ++ Py.str_of_int conn_id)%string;
     Connection.protocol := Py.or_else (Row.protocol row) "ssh";
     Connection.parameters := [];
     Connection.attributes := [];
     Connection.users := [];
     Connection.groups := [] |}.

(** Lines 111-114: the fresh group object. *)
Definition new_group (row : Row.t) : Group.t :=
  {| Group.group_name := Py.or_else (Row.group_name row) "ROOT";
     Group.connections := [] |}.

(** Lines 133-134. *)
Definition add_parameter (row : Row.t) (c : Connection.t) : Connection.t :=
  match Row.parameter_name row with
  | Some k =>
      if Py.truthy (Some k) then
        {| Connection.connection_id := Connection.connection_id c;
           Connection.name := Connection.name c;
           Connection.protocol := Connection.protocol c;
           Connection.parameters :=
             dict_set String.eqb k (Row.parameter_value row) (Connection.parameters c);
           Connection.attributes := Connection.attributes c;
           Connection.users := Connection.users c;
           Connection.groups := Connection.groups c |}
      else c
  | None => c
  end.

(** Lines 137-138. *)
Definition add_attribute (row : Row.t) (c : Connection.t) : Connection.t :=
  match Row.attribute_name row with
  | Some k =>
      if Py.truthy (Some k) then
        {| Connection.connection_id := Connection.connection_id c;
           Connection.name := Connection.name c;
           Connection.protocol := Connection.protocol c;
           Connection.parameters := Connection.parameters c;
           Connection.attributes :=
             dict_set String.eqb k (Row.attribute_value row) (Connection.attributes c);
           Connection.users := Connection.users c;
           Connection.groups := Connection.groups c |}
      else c
  | None => c
  end.

(** Lines 141-142. *)
Definition add_user (row : Row.t) (c : Connection.t) : Connection.t :=
  if Py.opt_eqb String.eqb (Row.entity_type row) (Some "USER")
     && negb (Py.contains (Row.entity_name row) (Connection.users c))
  then
    {| Connection.connection_id := Connection.connection_id c;
       Connection.name := Connection.name c;
       Connection.protocol := Connection.protocol c;
       Connection.parameters := Connection.parameters c;
       Connection.attributes := Connection.attributes c;
       Connection.users := Connection.users c ++ [Row.entity_name row];
       Connection.groups := Connection.groups c |}
  else c.

(** Lines 145-146. *)
Definition add_group (row : Row.t) (c : Connection.t) : Connection.t :=
  if Py.opt_eqb String.eqb (Row.entity_type row) (Some "USER_GROUP")
     && negb (Py.contains (Row.entity_name row) (Connection.groups c))
  then
    {| Connection.connection_id := Connection.connection_id c;
       Connection.name := Connection.name c;
       Connection.protocol := Connection.protocol c;
       Connection.parameters := Connection.parameters c;
       Connection.attributes := Connection.attributes c;
       Connection.users := Connection.users c;
       Connection.groups := Connection.groups c ++ [Row.entity_name row] |}
  else c.

(** Lines 132-146: what one row writes into the connection it belongs to. *)
Definition fold_row (row : Row.t) (c : Connection.t) : Connection.t :=
  add_group row (add_user row (add_attribute row (add_parameter row c))).

(** Mutation of the first list element that satisfies [p]: the object that
    [next(c for c in ... if p(c))] returns is that element, and the list holds
    the only other reference to it. *)
Fixpoint update_first {A : Type} (p : A -> bool) (f : A -> A) (l : list A) : list A :=
  match l with
  | [] => []
  | x :: l' => if p x then f x :: l' else x :: update_first p f l'
  end.

(** Lines 116-146 on the connection list of the row's group.  A dict with
    seven keys is truthy, so [not connection] holds exactly when the
    generator is exhausted. *)
Definition locate_and_fold (row : Row.t) (conns : list Connection.t) : list Connection.t :=
  let conn_id := Row.connection_id row in
  let conns1 :=
    match find (has_id conn_id) conns with
    | Some _ => conns
    | None => conns ++ [new_connection row]
    end in
  update_first (has_id conn_id) (fold_row row) conns1.

(** Body of the loop, lines 107-146. *)
Definition step (groups : Groups) (row : Row.t) : Groups :=
  let group_id := Row.connection_group_id row in
  let groups1 :=
    if dict_mem group_id_eqb group_id groups then groups
    else dict_set group_id_eqb group_id (new_group row) groups in
  dict_update group_id_eqb group_id
    (fun g => {| Group.group_name := Group.group_name g;
                 Group.connections := locate_and_fold row (Group.connections g) |})
    groups1.

(** Lines 105-146: [groups = {}] followed by the loop. *)
Definition aggregate (rows : list Row.t) : Groups :=
  fold_left step rows [].

(** ** The enum metadata extractor ([fetch_dropdown_options]) *)

(** One row of the INFORMATION_SCHEMA query. *)
Module EnumField.
Record t := mk {
  COLUMN_NAME : string;
  COLUMN_TYPE : string
}.
End EnumField.

(** Line 74. *)
Definition parse_enum (column_type : string) : list string :=
  Py.split "," (Py.replace "'" "" (Py.strip "enum()" column_type)).

(** Lines 59-83. *)
Definition fetch_dropdown_options (enum_fields : list EnumField.t)
  : dict string (list string) :=
  fold_left
    (fun dropdown_options field =>
       dict_set String.eqb (EnumField.COLUMN_NAME field)
         (parse_enum (EnumField.COLUMN_TYPE field)) dropdown_options)
    enum_fields [].

(** ** The export ([export_to_json], lines 93-156) *)

(** [export_data], lines 148-151. *)
Module Document.
Record t := mk {
  connections : list Group.t;
  dropdown_options : dict string (list string)
}.
End Document.

(** What a run of [export_to_json] leaves behind once both result sets have
    been fetched: either the early return of lines 101-103, after which no
    file is written, or the document passed to [json.dump]. *)
Inductive outcome :=
| NoDataFound
| Exported (export_data : Document.t).

Definition export_to_json (enum_fields : list EnumField.t) (rows : list Row.t) : outcome :=
  let dropdown_options := fetch_dropdown_options enum_fields in
  match rows with
  | [] => NoDataFound
  | _ :: _ =>
      Exported {| Document.connections := dict_values (aggregate rows);
                  Document.dropdown_options := dropdown_options |}
  end.

(** ** The connection settings ([get_db_config_from_compose], lines 8-23) *)

(** What [yaml.safe_load] returns for the compose file.  [YOther] stands
    for every value that is neither of the kinds before it (a float, a
    timestamp, a byte string, a set): like them it is not a [dict]. *)
#[warnings="-register-all"]
Inductive yaml :=
| YNull
| YBool (b : bool)
| YInt (n : Z)
| YStr (s : string)
| YSeq (items : list yaml)
| YMap (entries : list (yaml * yaml))
| YOther.

(** The exceptions the function can raise once the file is loaded. *)
Inductive exn :=
| KeyError (key : string)
| TypeError
| AttributeError.

Inductive result (A : Type) :=
| Ok (value : A)
| Raise (e : exn).

Arguments Ok {A} value.
Arguments Raise {A} e.

Definition bind {A B : Type} (r : result A) (k : A -> result B) : result B :=
  match r with
  | Ok a => k a
  | Raise e => Raise e
  end.

(** A dict key equals the string [k]: only a [str] key can. *)
Definition key_is (k : string) (key : yaml) : bool :=
  match key with
  | YStr s => (s =? k)%string
  | _ => false
  end.

(** The value stored under the string [k] in the entries of a dict. *)
Definition yaml_lookup (k : string) (entries : list (yaml * yaml)) : option yaml :=
  match find (fun e => key_is k (fst e)) entries with
  | Some e => Some (snd e)
  | None => None
  end.

(** [v[k]]: a dict without the key raises KeyError, anything that is not
    a dict raises TypeError (not subscriptable, or not by a string). *)
Definition subscript (v : yaml) (k : string) : result yaml :=
  match v with
  | YMap entries =>
      match yaml_lookup k entries with
      | Some x => Ok x
      | None => Raise (KeyError k)
      end
  | _ => Raise TypeError
  end.

(** [v.get(k, default)]: only a dict has the method. *)
Definition get (v : yaml) (k : string) (default : yaml) : result yaml :=
  match v with
  | YMap entries =>
      match yaml_lookup k entries with
      | Some x => Ok x
      | None => Ok default
      end
  | _ => Raise AttributeError
  end.

(** The dict returned at lines 18-23. *)
Module DbConfig.
Record t := mk {
  host : yaml;
  user : yaml;
  password : yaml;
  database : yaml
}.
End DbConfig.

(** Lines 10-23, from the loaded [compose_data] on. *)
Definition get_db_config_from_compose (compose_data : yaml) : result DbConfig.t :=
  bind (subscript compose_data "services") (fun services =>
  bind (subscript services "db") (fun db_service =>
  bind (subscript db_service "environment") (fun environment =>
  bind (get environment "GUACAMOLE_DATABASE" (YStr "guacamole_db")) (fun db_name =>
  bind (get environment "GUACAMOLE_USERNAME" (YStr "guacamole_user")) (fun db_user =>
  bind (get environment "GUACAMOLE_PASSWORD" (YStr "password")) (fun db_password =>
  Ok {| DbConfig.host := YStr "localhost";
        DbConfig.user := db_user;
        DbConfig.password := db_password;
        DbConfig.database := db_name |})))))).

(** ** The JSON value written by [json.dump] *)

(** [json.dump] maps a dict to an object (members in insertion order), a
    list to an array, a [str] to a string, an [int] to a number and [None]
    to [null]. *)
#[warnings="-register-all"]
Inductive json :=
| JNull
| JInt (n : Z)
| JString (s : string)
| JArray (items : list json)
| JObject (members : list (string * json)).

Definition json_of_nullable (x : option string) : json :=
  match x with
  | Some s => JString s
  | None => JNull
  end.

Definition json_of_mapping (d : dict string (option string)) : json :=
  JObject (map (fun kv => (fst kv, json_of_nullable (snd kv))) d).

Definition json_of_connection (c : Connection.t) : json :=
  JObject
    [ ("connection_id", JInt (Connection.connection_id c));
      ("name", JString (Connection.name c));
      ("protocol", JString (Connection.protocol c));
      ("parameters", json_of_mapping (Connection.parameters c));
      ("attributes", json_of_mapping (Connection.attributes c));
      ("users", JArray (map json_of_nullable (Connection.users c)));
      ("groups", JArray (map json_of_nullable (Connection.groups c))) ].

Definition json_of_group (g : Group.t) : json :=
  JObject
    [ ("group_name", JString (Group.group_name g));
      ("connections", JArray (map json_of_connection (Group.connections g))) ].

Definition json_of_document (d : Document.t) : json :=
  JObject
    [ ("connections", JArray (map json_of_group (Document.connections d)));
      ("dropdown_options",
        JObject (map (fun kv => (fst kv, JArray (map JString (snd kv))))
                     (Document.dropdown_options d))) ].

(** ** Vocabulary of the specification *)

Section FirstSeen.

Variable A : Type.
Variable eqb : A -> A -> bool.

(** The distinct elements of a sequence in the order of their first
    occurrence. *)
Fixpoint first_seen (l : list A) : list A :=
  match l with
  | [] => []
  | x :: l' => x :: filter (fun y => negb (eqb x y)) (first_seen l')
  end.

(** [len(set(l))]: the number of distinct elements. *)
Definition distinct (l : list A) : nat := List.length (first_seen l).

End FirstSeen.

(** *** Rows, groups and pairs *)

(** The row carries group identifier [g]. *)
Definition in_group (g : option Z) (r : Row.t) : bool :=
  group_id_eqb (Row.connection_group_id r) g.

(** The row carries the pair [(g, c)]. *)
Definition is_pair (g : option Z) (c : Z) (r : Row.t) : bool :=
  in_group g r && (Row.connection_id r =? c)%Z.

(** The row carries connection identifier [c]. *)
Definition mentions (c : Z) (r : Row.t) : bool :=
  (Row.connection_id r =? c)%Z.

(** The rows that carry group identifier [g], in input order. *)
Definition rows_of_group (g : option Z) (rows : list Row.t) : list Row.t :=
  filter (in_group g) rows.

(** The rows that carry the pair [(g, c)], in input order. *)
Definition rows_of_pair (g : option Z) (c : Z) (rows : list Row.t) : list Row.t :=
  filter (is_pair g c) rows.

(** Number of rows that carry the pair [(g, c)]. *)
Definition occurrences (g : option Z) (c : Z) (rows : list Row.t) : nat :=
  List.length (filter (is_pair g c) rows).

(** [x is not None] *)
Definition is_some {A : Type} (x : option A) : bool :=
  match x with
  | Some _ => true
  | None => false
  end.

(** The tests of lines 141 and 145 on the entity type. *)
Definition is_user (r : Row.t) : bool :=
  Py.opt_eqb String.eqb (Row.entity_type r) (Some "USER").

Definition is_user_group (r : Row.t) : bool :=
  Py.opt_eqb String.eqb (Row.entity_type r) (Some "USER_GROUP").

(** A row as the join delivers it when the joined tables declare their
    value and name columns NOT NULL: a parameter or attribute name comes
    with a value, and an entity type comes with an entity name. *)
Definition well_formed (r : Row.t) : bool :=
  (negb (Py.truthy (Row.parameter_name r)) || is_some (Row.parameter_value r))
  && (negb (Py.truthy (Row.attribute_name r)) || is_some (Row.attribute_value r))
  && (negb (is_user r || is_user_group r) || is_some (Row.entity_name r)).

(** The empty string read as NULL. *)
Definition blank_to_null (x : option string) : option string :=
  if Py.truthy x then x else None.

(** The row with the five columns the aggregator tests for truth
    normalised: an empty string becomes NULL. *)
Definition nullify (r : Row.t) : Row.t :=
  {| Row.connection_id := Row.connection_id r;
     Row.name := blank_to_null (Row.name r);
     Row.protocol := blank_to_null (Row.protocol r);
     Row.parameter_name := blank_to_null (Row.parameter_name r);
     Row.parameter_value := Row.parameter_value r;
     Row.attribute_name := blank_to_null (Row.attribute_name r);
     Row.attribute_value := Row.attribute_value r;
     Row.connection_group_id := Row.connection_group_id r;
     Row.group_name := blank_to_null (Row.group_name r);
     Row.entity_name := Row.entity_name r;
     Row.entity_type := Row.entity_type r |}.

(** *** Looking into the aggregate *)

(** [groups[g]['connections']], empty when [g] is not a key. *)
Definition conns_of (g : option Z) (groups : Groups) : list Connection.t :=
  match dict_get group_id_eqb g groups with
  | Some grp => Group.connections grp
  | None => []
  end.

(** The connection object the generator of line 117 finds for [c] in
    group [g]. *)
Definition connection_at (g : option Z) (c : Z) (groups : Groups) : option Connection.t :=
  find (has_id c) (conns_of g groups).

(** The object a row writes into: the one found, or the fresh one. *)
Definition target (row : Row.t) (groups : Groups) : Connection.t :=
  match connection_at (Row.connection_group_id row) (Row.connection_id row) groups with
  | Some c => c
  | None => new_connection row
  end.

(** The effect of a run of rows on one connection object. *)
Definition folded (rs : list Row.t) (start : Connection.t) : Connection.t :=
  fold_left (fun x r => fold_row r x) rs start.

(** Every connection object of the aggregate satisfies [P]. *)
Definition every_connection (P : Connection.t -> Prop) (groups : Groups) : Prop :=
  forall g grp x, In (g, grp) groups -> In x (Group.connections grp) -> P x.

(** No NULL among the parameter values, attribute values, user names and
    group names of a connection object. *)
Definition strings_only (x : Connection.t) : bool :=
  forallb (fun kv => is_some (snd kv)) (Connection.parameters x)
  && forallb (fun kv => is_some (snd kv)) (Connection.attributes x)
  && forallb is_some (Connection.users x)
  && forallb is_some (Connection.groups x).

(** *** Counting connection objects *)

(** Number of connection objects with identifier [c] in one group object. *)
Definition copies_in (c : Z) (grp : Group.t) : nat :=
  List.length (filter (has_id c) (Group.connections grp)).

(** Number of connection objects for the pair [(g, c)] in the aggregate. *)
Definition count_pair (g : option Z) (c : Z) (groups : Groups) : nat :=
  list_sum (map (fun kv => if group_id_eqb (fst kv) g then copies_in c (snd kv) else 0%nat)
                groups).

(** Number of connection objects with identifier [c] in the exported list
    of groups, whatever group they sit in. *)
Definition count_id (c : Z) (out : list Group.t) : nat :=
  list_sum (map (copies_in c) out).

(** Number of group objects in the exported list that hold a connection
    with identifier [c]. *)
Definition groups_holding (c : Z) (out : list Group.t) : nat :=
  List.length (filter (fun grp => existsb (has_id c) (Group.connections grp)) out).

(** *** First-seen order *)

(** Identifiers of the connections of a group object, in list order. *)
Definition connection_ids (grp : Group.t) : list Z :=
  map Connection.connection_id (Group.connections grp).

(** Keys and connection identifiers of the aggregate, contents forgotten. *)
Definition shape (groups : Groups) : list (option Z * list Z) :=
  map (fun kv => (fst kv, connection_ids (snd kv))) groups.

(** The layout the specification asks for: the group identifiers in the
    order of their first occurrence, each with the connection identifiers
    of its rows in the order of their first occurrence. *)
Definition first_seen_connections (g : option Z) (rows : list Row.t) : list Z :=
  first_seen Z.eqb (map Row.connection_id (rows_of_group g rows)).

Definition first_seen_groups (rows : list Row.t) : list (option Z) :=
  first_seen group_id_eqb (map Row.connection_group_id rows).

Definition first_seen_layout (rows : list Row.t) : list (option Z * list Z) :=
  map (fun g => (g, first_seen_connections g rows)) (first_seen_groups rows).

(** The display name the first row of group [g] gives it. *)
Definition first_seen_group_name (g : option Z) (rows : list Row.t) : option string :=
  match rows_of_group g rows with
  | [] => None
  | r0 :: _ => Some (Py.or_else (Row.group_name r0) "ROOT")
  end.

(** *** The output schema *)

(** The output schema of a connection object. *)
Definition is_int (j : json) : bool :=
  match j with JInt _ => true | _ => false end.

Definition is_string (j : json) : bool :=
  match j with JString _ => true | _ => false end.

Definition is_array (j : json) : bool :=
  match j with JArray _ => true | _ => false end.

Definition is_object (j : json) : bool :=
  match j with JObject _ => true | _ => false end.

Definition is_string_array (j : json) : bool :=
  match j with JArray items => forallb is_string items | _ => false end.

Definition is_string_mapping (j : json) : bool :=
  match j with
  | JObject members => forallb (fun kv => is_string (snd kv)) members
  | _ => false
  end.

(** [j[k]] for an object [j]. *)
Definition member (k : string) (j : json) : option json :=
  match j with
  | JObject members => dict_get String.eqb k members
  | _ => None
  end.

(** Key [k] is present in [j] and its value satisfies [p]. *)
Definition member_is (p : json -> bool) (k : string) (j : json) : bool :=
  match member k j with
  | Some v => p v
  | None => false
  end.

(** All seven keys are present, with values of the right JSON kind. *)
Definition connection_layout (j : json) : bool :=
  member_is is_int "connection_id" j
  && member_is is_string "name" j
  && member_is is_string "protocol" j
  && member_is is_object "parameters" j
  && member_is is_object "attributes" j
  && member_is is_array "users" j
  && member_is is_array "groups" j.

(** The layout, and every leaf below the four containers is a string. *)
Definition connection_schema (j : json) : bool :=
  member_is is_int "connection_id" j
  && member_is is_string "name" j
  && member_is is_string "protocol" j
  && member_is is_string_mapping "parameters" j
  && member_is is_string_mapping "attributes" j
  && member_is is_string_array "users" j
  && member_is is_string_array "groups" j.

Definition items_of (j : option json) : list json :=
  match j with
  | Some (JArray items) => items
  | _ => []
  end.

(** Every connection object of a serialised document. *)
Definition connection_objects (doc : json) : list json :=
  flat_map (fun g => items_of (member "connections" g))
           (items_of (member "connections" doc)).

(** *** Enum declarations *)

(** An enum declaration as INFORMATION_SCHEMA prints it. *)
Definition quoted (literal : string) : string :=
  ("'" ++ literal ++ "'")%string.

Definition enum_declaration (literals : list string) : string :=
  ("enum(" ++ String.concat "," (map quoted literals) ++ ")")%string.

(** A literal without quote or comma. *)
Definition plain (literal : string) : bool :=
  negb (Py.char_in "'" literal) && negb (Py.char_in "," literal).

(** *** Dictionaries built in a loop *)

Section DictFold.

Variables X K V : Type.
Variable eqb : K -> K -> bool.
Variable key : X -> option K.
Variable val : X -> V.

(** The dict left by a loop that stores [val x] under [key x] for every
    [x] that has a key. *)
Definition dict_fold (xs : list X) (d : dict K V) : dict K V :=
  fold_left
    (fun d x => match key x with
                | Some k => dict_set eqb k (val x) d
                | None => d
                end)
    xs d.

(** The value of the last element of [xs] whose key is [k]. *)
Definition last_value (k : K) (xs : list X) : option V :=
  option_map val (find (fun x => Py.opt_eqb eqb (key x) (Some k)) (rev xs)).

(** The keys of the elements of [xs], in order. *)
Definition keys_of (xs : list X) : list K :=
  flat_map (fun x => match key x with
                     | Some k => [k]
                     | None => []
                     end) xs.

End DictFold.

(** The key under which a row stores its parameter value, if any: the
    parameter name when it is neither NULL nor empty.  Likewise for the
    attribute. *)
Definition parameter_key (r : Row.t) : option string :=
  blank_to_null (Row.parameter_name r).

Definition attribute_key (r : Row.t) : option string :=
  blank_to_null (Row.attribute_name r).

(** The key of a schema row: its column name. *)
Definition column_key (field : EnumField.t) : option string :=
  Some (EnumField.COLUMN_NAME field).

(** Number of occurrences of a character in a string. *)
Fixpoint count_char (c : ascii) (s : string) : nat :=
  match s with
  | EmptyString => 0%nat
  | String d rest => if (c =? d)%char then S (count_char c rest) else count_char c rest
  end.

(** The compose file has a [services] mapping with a [db] mapping with
    an [environment] mapping whose entries are [env]. *)
Definition has_environment (compose_data : yaml) (env : list (yaml * yaml)) : Prop :=
  exists top services db_service,
    compose_data = YMap top
    /\ yaml_lookup "services" top = Some (YMap services)
    /\ yaml_lookup "db" services = Some (YMap db_service)
    /\ yaml_lookup "environment" db_service = Some (YMap env).

(** The environment entry [k], or [default] when there is none. *)
Definition setting (k : string) (default : string) (env : list (yaml * yaml)) : yaml :=
  match yaml_lookup k env with
  | Some v => v
  | None => YStr default
  end.

(** *** Readings of the specification that the code does not follow *)

(** The reading of the specification under which a connection identifier
    sits under one group only, the group of the first row that mentions
    it. *)
Definition first_seen_group_wins (rows : list Row.t) : Prop :=
  forall c r0,
    find (mentions c) rows = Some r0 ->
    count_id c (dict_values (aggregate rows)) = 1%nat
    /\ count_pair (Row.connection_group_id r0) c (aggregate rows) = 1%nat.

(** The reading of the specification under which an empty result set
    still yields a document. *)
Definition empty_export_produced (enum_fields : list EnumField.t) : Prop :=
  exists doc,
    export_to_json enum_fields [] = Exported doc /\ Document.connections doc = [].

(** The reading of the specification under which a row contributes an
    entity name only when the name is not NULL.  [groups] is the state of
    the loop when the row arrives. *)
Definition entity_rule_as_specified (groups : Groups) (r : Row.t) : Prop :=
  let before := target r groups in
  forall after,
    connection_at (Row.connection_group_id r) (Row.connection_id r) (step groups r)
    = Some after ->
    (Connection.users after = Connection.users before ++ [Row.entity_name r]
     <-> is_user r = true
         /\ Row.entity_name r <> None
         /\ ~ In (Row.entity_name r) (Connection.users before))
    /\ (Connection.groups after = Connection.groups before ++ [Row.entity_name r]
        <-> is_user_group r = true
            /\ Row.entity_name r <> None
            /\ ~ In (Row.entity_name r) (Connection.groups before))
    /\ (Row.entity_name r = None ->
        Connection.users after = Connection.users before
        /\ Connection.groups after = Connection.groups before).

(** The reading of the specification under which every leaf of every
    exported connection object other than the identifier is a string,
    whatever the rows are. *)
Definition all_leaves_strings (rows : list Row.t) : Prop :=
  forall enum_fields doc,
    export_to_json enum_fields rows = Exported doc ->
    forallb connection_schema (connection_objects (json_of_document doc)) = true.

(** *** Sample rows *)

(** A row of a connection without parameters, attributes or permissions. *)
Definition bare_row (conn_id : Z) (group_id : option Z) : Row.t :=
  {| Row.connection_id := conn_id;
     Row.name := None;
     Row.protocol := None;
     Row.parameter_name := None;
     Row.parameter_value := None;
     Row.attribute_name := None;
     Row.attribute_value := None;
     Row.connection_group_id := group_id;
     Row.group_name := None;
     Row.entity_name := None;
     Row.entity_type := None |}.

(** The two rows of the end-to-end scenario. *)
Definition row_alice : Row.t :=
  {| Row.connection_id := 1;
     Row.name := None;
     Row.protocol := None;
     Row.parameter_name := Some "hostname";
     Row.parameter_value := Some "10.0.0.1";
     Row.attribute_name := None;
     Row.attribute_value := None;
     Row.connection_group_id := None;
     Row.group_name := None;
     Row.entity_name := Some "alice";
     Row.entity_type := Some "USER" |}.

Definition row_admins : Row.t :=
  {| Row.connection_id := 1;
     Row.name := None;
     Row.protocol := None;
     Row.parameter_name := Some "port";
     Row.parameter_value := Some "22";
     Row.attribute_name := None;
     Row.attribute_value := None;
     Row.connection_group_id := None;
     Row.group_name := None;
     Row.entity_name := Some "admins";
     Row.entity_type := Some "USER_GROUP" |}.

(** What the end-to-end scenario exports. *)
Definition scenario_connection : Connection.t :=
  {| Connection.connection_id := 1;
     Connection.name := "Unnamed Connection 1";
     Connection.protocol := "ssh";
     Connection.parameters := [("hostname", Some "10.0.0.1"); ("port", Some "22")];
     Connection.attributes := [];
     Connection.users := [Some "alice"];
     Connection.groups := [Some "admins"] |}.

Definition scenario_group : Group.t :=
  {| Group.group_name := "ROOT";
     Group.connections := [scenario_connection] |}.

Definition scenario_document : Document.t :=
  {| Document.connections := [scenario_group];
     Document.dropdown_options := [] |}.

(** Rows of three connections in two groups, out of identifier order. *)
Definition ordering_rows : list Row.t :=
  [ bare_row 5 (Some 2%Z); bare_row 3 None; bare_row 4 (Some 2%Z);
    bare_row 5 (Some 2%Z); bare_row 3 None ].

Definition ordering_document : Document.t :=
  {| Document.connections := dict_values (aggregate ordering_rows);
     Document.dropdown_options := [] |}.

(** A first row whose name, protocol, group name, parameter name and
    attribute name are all empty strings. *)
Definition row_blank : Row.t :=
  {| Row.connection_id := 42;
     Row.name := Some "";
     Row.protocol := Some "";
     Row.parameter_name := Some "";
     Row.parameter_value := Some "x";
     Row.attribute_name := Some "";
     Row.attribute_value := Some "y";
     Row.connection_group_id := None;
     Row.group_name := Some "";
     Row.entity_name := None;
     Row.entity_type := None |}.

(** A permission row whose entity name is NULL. *)
Definition row_nameless_user : Row.t :=
  {| Row.connection_id := 1;
     Row.name := None;
     Row.protocol := None;
     Row.parameter_name := None;
     Row.parameter_value := None;
     Row.attribute_name := None;
     Row.attribute_value := None;
     Row.connection_group_id := None;
     Row.group_name := None;
     Row.entity_name := None;
     Row.entity_type := Some "USER" |}.

(** A parameter row whose value is NULL. *)
Definition row_valueless_parameter : Row.t :=
  {| Row.connection_id := 1;
     Row.name := Some "gateway";
     Row.protocol := Some "rdp";
     Row.parameter_name := Some "hostname";
     Row.parameter_value := None;
     Row.attribute_name := None;
     Row.attribute_value := None;
     Row.connection_group_id := None;
     Row.group_name := None;
     Row.entity_name := None;
     Row.entity_type := None |}.

(** Two rows of one connection that set the same parameter to different
    values, the second a repeated permission. *)
Definition row_host_old : Row.t :=
  {| Row.connection_id := 9;
     Row.name := Some "gateway";
     Row.protocol := Some "rdp";
     Row.parameter_name := Some "hostname";
     Row.parameter_value := Some "10.0.0.1";
     Row.attribute_name := Some "max-connections";
     Row.attribute_value := Some "2";
     Row.connection_group_id := Some 3%Z;
     Row.group_name := Some "Lab";
     Row.entity_name := Some "alice";
     Row.entity_type := Some "USER" |}.

Definition row_host_new : Row.t :=
  {| Row.connection_id := 9;
     Row.name := Some "renamed";
     Row.protocol := Some "vnc";
     Row.parameter_name := Some "hostname";
     Row.parameter_value := Some "10.0.0.2";
     Row.attribute_name := Some "";
     Row.attribute_value := Some "ignored";
     Row.connection_group_id := Some 3%Z;
     Row.group_name := Some "Renamed lab";
     Row.entity_name := Some "alice";
     Row.entity_type := Some "USER" |}.

Definition host_rows : list Row.t := [row_host_old; row_host_new].

Definition host_connection : Connection.t :=
  {| Connection.connection_id := 9;
     Connection.name := "gateway";
     Connection.protocol := "rdp";
     Connection.parameters := [("hostname", Some "10.0.0.2")];
     Connection.attributes := [("max-connections", Some "2")];
     Connection.users := [Some "alice"];
     Connection.groups := [] |}.

Definition host_group : Group.t :=
  {| Group.group_name := "Lab";
     Group.connections := [host_connection] |}.

Definition host_document : Document.t :=
  {| Document.connections := [host_group];
     Document.dropdown_options := [] |}.

(** A compose file with a partly filled environment, one in which the
    environment is written as a list, and one without a [db] service. *)
Definition compose_environment : list (yaml * yaml) :=
  [ (YStr "GUACAMOLE_DATABASE", YStr "kcm");
    (YStr "GUACAMOLE_PASSWORD", YNull);
    (YStr "ACCEPT_EULA", YStr "Y") ].

Definition compose_with (environment : yaml) : yaml :=
  YMap [ (YStr "version", YStr "3");
         (YStr "services",
          YMap [ (YStr "guacd", YMap []);
                 (YStr "db", YMap [ (YStr "image", YStr "keeper/guacamole-db-mysql");
                                    (YStr "environment", environment) ]) ]) ].

Definition compose_mapping : yaml := compose_with (YMap compose_environment).

Definition compose_list : yaml :=
  compose_with (YSeq [YStr "GUACAMOLE_DATABASE=kcm"]).

Definition compose_without_db : yaml :=
  YMap [ (YStr "services", YMap [ (YStr "guacd", YMap []) ]) ].

(** * Properties *)

Unset Implicit Arguments.

(** ** Equality tests *)

Lemma group_id_eqb_eq (x y : option Z) : group_id_eqb x y = true <-> x = y.
Proof.
  destruct x as [a|], y as [b|]; simpl; split; intro H;
    try discriminate; try reflexivity.
  - apply Z.eqb_eq in H. now subst.
  - injection H as ->. apply Z.eqb_refl.
Qed.

Lemma group_id_eqb_refl (x : option Z) : group_id_eqb x x = true.
Proof. now apply group_id_eqb_eq. Qed.

Lemma group_id_eqb_sym (x y : option Z) : group_id_eqb x y = group_id_eqb y x.
Proof.
  destruct (group_id_eqb x y) eqn:E.
  - apply group_id_eqb_eq in E. subst. symmetry. apply group_id_eqb_refl.
  - destruct (group_id_eqb y x) eqn:E'; [|reflexivity].
    apply group_id_eqb_eq in E'. subst. now rewrite group_id_eqb_refl in E.
Qed.

Lemma nullable_eqb_eq (x y : option string) :
  Py.opt_eqb String.eqb x y = true <-> x = y.
Proof.
  destruct x as [a|], y as [b|]; simpl; split; intro H;
    try discriminate; try reflexivity.
  - apply String.eqb_eq in H. now subst.
  - injection H as ->. apply String.eqb_refl.
Qed.

Lemma contains_In (x : option string) (l : list (option string)) :
  Py.contains x l = true <-> In x l.
Proof.
  unfold Py.contains. rewrite existsb_exists. split.
  - intros (y & Hy & E). apply nullable_eqb_eq in E. now subst.
  - intro H. exists x. split; [assumption | now apply nullable_eqb_eq].
Qed.

Lemma has_id_true (c : Z) (x : Connection.t) :
  has_id c x = true <-> Connection.connection_id x = c.
Proof. unfold has_id. apply Z.eqb_eq. Qed.

(** ** Sequences of first occurrences *)

Section FirstSeenFacts.

Variable A : Type.
Variable eqb : A -> A -> bool.
Hypothesis eqb_eq : forall x y, eqb x y = true <-> x = y.

Lemma eqb_reflexive (x : A) : eqb x x = true.
Proof. now apply eqb_eq. Qed.

Lemma existsb_eqb_In (x : A) (l : list A) :
  existsb (eqb x) l = true <-> In x l.
Proof.
  rewrite existsb_exists. split.
  - intros (y & Hy & E). apply eqb_eq in E. now subst.
  - intro H. exists x. split; [assumption | apply eqb_reflexive].
Qed.

Lemma first_seen_In (x : A) (l : list A) :
  In x (first_seen eqb l) <-> In x l.
Proof.
  induction l as [|a l IH]; simpl; [tauto|].
  rewrite filter_In, IH. split.
  - intros [H | [H _]]; auto.
  - intros [H | H]; [now left|].
    destruct (eqb a x) eqn:E.
    + left. now apply eqb_eq.
    + right. split; [assumption | reflexivity].
Qed.

Lemma first_seen_NoDup (l : list A) : NoDup (first_seen eqb l).
Proof.
  induction l as [|a l IH]; simpl; constructor.
  - rewrite filter_In. intros [_ H].
    now rewrite eqb_reflexive in H.
  - now apply NoDup_filter.
Qed.

(** The recurrence the aggregator follows: a value seen before changes
    nothing, a new value goes last. *)
Lemma first_seen_snoc (l : list A) (x : A) :
  first_seen eqb (l ++ [x]) =
  if existsb (eqb x) l then first_seen eqb l else first_seen eqb l ++ [x].
Proof.
  induction l as [|a l IH]; simpl; [reflexivity|].
  rewrite IH. destruct (eqb x a) eqn:Exa; simpl.
  - apply eqb_eq in Exa. subst a.
    destruct (existsb (eqb x) l); [reflexivity|].
    rewrite filter_app. simpl. rewrite eqb_reflexive. simpl.
    now rewrite app_nil_r.
  - destruct (existsb (eqb x) l); [reflexivity|].
    rewrite filter_app. simpl.
    destruct (eqb a x) eqn:Eax.
    + apply eqb_eq in Eax. subst a. now rewrite eqb_reflexive in Exa.
    + reflexivity.
Qed.

Lemma existsb_first_seen (x : A) (l : list A) :
  existsb (eqb x) (first_seen eqb l) = existsb (eqb x) l.
Proof.
  apply eq_true_iff_eq.
  now rewrite !existsb_eqb_In, first_seen_In.
Qed.

Lemma NoDup_filter_eqb (x : A) (l : list A) :
  NoDup l ->
  List.length (filter (eqb x) l) = if existsb (eqb x) l then 1%nat else 0%nat.
Proof.
  induction 1 as [|a l Hnotin ND IH]; simpl; [reflexivity|].
  destruct (eqb x a) eqn:E; simpl; [|exact IH].
  apply eqb_eq in E. subst a. rewrite IH.
  destruct (existsb (eqb x) l) eqn:E'; [|reflexivity].
  apply existsb_eqb_In in E'. contradiction.
Qed.

End FirstSeenFacts.

Arguments eqb_reflexive {A eqb} eqb_eq x.
Arguments existsb_eqb_In {A eqb} eqb_eq x l.
Arguments first_seen_In {A eqb} eqb_eq x l.
Arguments first_seen_NoDup {A eqb} eqb_eq l.
Arguments first_seen_snoc {A eqb} eqb_eq l x.
Arguments existsb_first_seen {A eqb} eqb_eq x l.
Arguments NoDup_filter_eqb {A eqb} eqb_eq x l.

(** ** Dictionaries *)

Section DictFacts.

Variables K V : Type.
Variable eqb : K -> K -> bool.
Hypothesis eqb_eq : forall x y, eqb x y = true <-> x = y.

Implicit Types (d : dict K V) (k : K) (v : V).

Lemma dict_mem_keys k d : dict_mem eqb k d = existsb (eqb k) (dict_keys d).
Proof.
  unfold dict_mem, dict_keys. induction d as [|[k0 v0] d IH]; simpl; [reflexivity|].
  now rewrite IH.
Qed.

Lemma dict_mem_get k d : dict_mem eqb k d = is_some (dict_get eqb k d).
Proof.
  unfold dict_mem. induction d as [|[k0 v0] d IH]; simpl; [reflexivity|].
  destruct (eqb k k0); simpl; [reflexivity | exact IH].
Qed.

Lemma dict_set_keys k v d :
  dict_keys (dict_set eqb k v d) =
  if dict_mem eqb k d then dict_keys d else dict_keys d ++ [k].
Proof.
  unfold dict_mem, dict_keys. induction d as [|[k0 v0] d IH]; simpl; [reflexivity|].
  destruct (eqb k k0); simpl; [reflexivity|].
  rewrite IH. now destruct (existsb _ d).
Qed.

Lemma dict_update_keys k (f : V -> V) d :
  dict_keys (dict_update eqb k f d) = dict_keys d.
Proof.
  unfold dict_keys. induction d as [|[k0 v0] d IH]; simpl; [reflexivity|].
  destruct (eqb k k0); simpl; [reflexivity | now rewrite IH].
Qed.

Lemma eqb_trans_l k k' k0 : eqb k k0 = true -> eqb k' k = eqb k' k0.
Proof. intro H. apply eqb_eq in H. now subst. Qed.

Lemma dict_get_set k' k v d :
  dict_get eqb k' (dict_set eqb k v d) =
  if eqb k' k then Some v else dict_get eqb k' d.
Proof.
  induction d as [|[k0 v0] d IH]; simpl.
  - now destruct (eqb k' k).
  - destruct (eqb k k0) eqn:E; simpl.
    + rewrite (eqb_trans_l k k' k0 E). now destruct (eqb k' k0).
    + rewrite IH. destruct (eqb k' k0) eqn:E'; [|reflexivity].
      destruct (eqb k' k) eqn:E''; [|reflexivity].
      apply eqb_eq in E', E''. subst.
      assert (eqb k0 k0 = true) by now apply eqb_eq. congruence.
Qed.

Lemma dict_get_update k' k (f : V -> V) d :
  dict_get eqb k' (dict_update eqb k f d) =
  if eqb k' k then option_map f (dict_get eqb k d) else dict_get eqb k' d.
Proof.
  induction d as [|[k0 v0] d IH]; simpl.
  - now destruct (eqb k' k).
  - destruct (eqb k k0) eqn:E; simpl.
    + rewrite (eqb_trans_l k k' k0 E). now destruct (eqb k' k0).
    + rewrite IH. destruct (eqb k' k0) eqn:E'; [|reflexivity].
      destruct (eqb k' k) eqn:E''; [|reflexivity].
      apply eqb_eq in E', E''. subst.
      assert (eqb k0 k0 = true) by now apply eqb_eq. congruence.
Qed.

(** With distinct keys, every entry is the one a lookup returns. *)
Lemma dict_get_In k v d :
  NoDup (dict_keys d) -> In (k, v) d -> dict_get eqb k d = Some v.
Proof.
  unfold dict_keys. induction d as [|[k0 v0] d IH]; simpl; [tauto|].
  intros ND [H | H].
  - injection H as -> ->.
    assert (E : eqb k k = true) by now apply eqb_eq. now rewrite E.
  - inversion ND as [|? ? Hnotin ND']; subst.
    destruct (eqb k k0) eqn:E.
    + apply eqb_eq in E. subst k0. exfalso. apply Hnotin.
      change k with (fst (k, v)). now apply in_map.
    + now apply IH.
Qed.

Lemma dict_get_Some_In k v d : dict_get eqb k d = Some v -> In (k, v) d.
Proof.
  induction d as [|[k0 v0] d IH]; simpl; [discriminate|].
  destruct (eqb k k0) eqn:E.
  - intro H. injection H as ->. apply eqb_eq in E. subst. now left.
  - intro H. right. now apply IH.
Qed.

(** An entry of an updated dict is an old entry, possibly mutated. *)
Lemma dict_update_In k (f : V -> V) k' v' d :
  In (k', v') (dict_update eqb k f d) ->
  In (k', v') d \/ exists v, In (k', v) d /\ k' = k /\ v' = f v.
Proof.
  induction d as [|[k0 v0] d IH]; simpl; [tauto|].
  destruct (eqb k k0) eqn:E; simpl.
  - intros [H | H]; [|tauto].
    injection H as <- <-. right. exists v0.
    apply eqb_eq in E. subst. auto.
  - intros [H | H]; [tauto|].
    destruct (IH H) as [H' | (v & H1 & H2 & H3)]; [tauto|].
    right. exists v. auto.
Qed.

Lemma dict_set_In k v k' v' d :
  In (k', v') (dict_set eqb k v d) -> In (k', v') d \/ v' = v.
Proof.
  induction d as [|[k0 v0] d IH]; simpl.
  - intros [H | []]. injection H as <- <-. now right.
  - destruct (eqb k k0); simpl.
    + intros [H | H]; [|tauto]. injection H as <- <-. now right.
    + intros [H | H]; [tauto|]. destruct (IH H); tauto.
Qed.

End DictFacts.

Arguments dict_get_set {K V eqb} eqb_eq k' k v d.
Arguments dict_get_update {K V eqb} eqb_eq k' k f d.
Arguments dict_get_In {K V eqb} eqb_eq k v d.
Arguments dict_get_Some_In {K V eqb} eqb_eq k v d.
Arguments dict_update_In {K V eqb} eqb_eq k f k' v' d.

(** ** One row *)

Lemma fold_row_id (r : Row.t) (c : Connection.t) :
  Connection.connection_id (fold_row r c) = Connection.connection_id c.
Proof.
  unfold fold_row, add_group, add_user, add_attribute, add_parameter.
  repeat match goal with
         | |- context [match ?x with _ => _ end] => destruct x; simpl
         end; reflexivity.
Qed.

Lemma fold_row_name (r : Row.t) (c : Connection.t) :
  Connection.name (fold_row r c) = Connection.name c.
Proof.
  unfold fold_row, add_group, add_user, add_attribute, add_parameter.
  repeat match goal with
         | |- context [match ?x with _ => _ end] => destruct x; simpl
         end; reflexivity.
Qed.

Lemma fold_row_protocol (r : Row.t) (c : Connection.t) :
  Connection.protocol (fold_row r c) = Connection.protocol c.
Proof.
  unfold fold_row, add_group, add_user, add_attribute, add_parameter.
  repeat match goal with
         | |- context [match ?x with _ => _ end] => destruct x; simpl
         end; reflexivity.
Qed.

Lemma find_app {A : Type} (p : A -> bool) (l l' : list A) :
  find p (l ++ l') =
  match find p l with
  | Some x => Some x
  | None => find p l'
  end.
Proof.
  induction l as [|a l IH]; simpl; [reflexivity|].
  now destruct (p a).
Qed.

Lemma find_existsb {A : Type} (p : A -> bool) (l : list A) :
  is_some (find p l) = existsb p l.
Proof.
  induction l as [|a l IH]; simpl; [reflexivity|].
  now destruct (p a).
Qed.

Section UpdateFirst.

Variable f : Connection.t -> Connection.t.
Hypothesis f_id : forall x, Connection.connection_id (f x) = Connection.connection_id x.

Lemma update_first_ids (c : Z) (l : list Connection.t) :
  map Connection.connection_id (update_first (has_id c) f l) =
  map Connection.connection_id l.
Proof.
  induction l as [|x l IH]; simpl; [reflexivity|].
  destruct (has_id c x); simpl; [now rewrite f_id | now rewrite IH].
Qed.

Lemma find_update_first (c' c : Z) (l : list Connection.t) :
  find (has_id c') (update_first (has_id c) f l) =
  if (c' =? c)%Z then option_map f (find (has_id c) l) else find (has_id c') l.
Proof.
  induction l as [|x l IH]; simpl.
  - now destruct (c' =? c)%Z.
  - destruct (has_id c x) eqn:E; simpl.
    + unfold has_id at 1. rewrite f_id.
      apply has_id_true in E.
      destruct (c' =? c)%Z eqn:E'.
      * apply Z.eqb_eq in E'. subst c'. rewrite E, Z.eqb_refl. reflexivity.
      * unfold has_id at 2. rewrite E.
        rewrite Z.eqb_sym, E'. reflexivity.
    + rewrite IH. destruct (has_id c' x) eqn:E''; [|reflexivity].
      destruct (c' =? c)%Z eqn:E'; [|reflexivity].
      apply Z.eqb_eq in E'. subst c'. congruence.
Qed.

Lemma update_first_In (c : Z) (x : Connection.t) (l : list Connection.t) :
  In x (update_first (has_id c) f l) ->
  In x l \/ exists y, In y l /\ x = f y.
Proof.
  induction l as [|a l IH]; simpl; [tauto|].
  destruct (has_id c a); simpl.
  - intros [H | H]; [|tauto]. right. exists a. auto.
  - intros [H | H]; [tauto|].
    destruct (IH H) as [H' | (y & H1 & H2)]; [tauto|].
    right. exists y. auto.
Qed.

End UpdateFirst.

Lemma existsb_has_id (c : Z) (l : list Connection.t) :
  existsb (has_id c) l = existsb (Z.eqb c) (map Connection.connection_id l).
Proof.
  induction l as [|x l IH]; simpl; [reflexivity|].
  unfold has_id at 1. now rewrite Z.eqb_sym, IH.
Qed.

(** Identifiers after lines 116-146: unchanged when the connection was
    found, extended by the row's identifier otherwise. *)
Lemma locate_and_fold_ids (r : Row.t) (conns : list Connection.t) :
  map Connection.connection_id (locate_and_fold r conns) =
  if existsb (Z.eqb (Row.connection_id r)) (map Connection.connection_id conns)
  then map Connection.connection_id conns
  else map Connection.connection_id conns ++ [Row.connection_id r].
Proof.
  unfold locate_and_fold.
  rewrite (update_first_ids (fold_row r) (fold_row_id r)).
  rewrite <- existsb_has_id, <- find_existsb.
  destruct (find _ conns); simpl; [reflexivity|].
  now rewrite map_app.
Qed.

(** The generator's result after lines 116-146. *)
Lemma find_locate_and_fold (c' : Z) (r : Row.t) (conns : list Connection.t) :
  find (has_id c') (locate_and_fold r conns) =
  if (c' =? Row.connection_id r)%Z
  then Some (fold_row r (match find (has_id (Row.connection_id r)) conns with
                         | Some c => c
                         | None => new_connection r
                         end))
  else find (has_id c') conns.
Proof.
  unfold locate_and_fold.
  rewrite (find_update_first (fold_row r) (fold_row_id r)).
  destruct (find (has_id (Row.connection_id r)) conns) as [c|] eqn:E.
  - rewrite E. reflexivity.
  - rewrite !find_app, E. simpl.
    unfold has_id at 1. simpl. rewrite Z.eqb_refl. simpl.
    destruct (c' =? Row.connection_id r)%Z eqn:E'; [reflexivity|].
    destruct (find (has_id c') conns); [reflexivity|].
    unfold has_id. simpl. now rewrite Z.eqb_sym, E'.
Qed.

(** ** The loop *)

Lemma aggregate_snoc (rows : list Row.t) (r : Row.t) :
  aggregate (rows ++ [r]) = step (aggregate rows) r.
Proof. unfold aggregate. now rewrite fold_left_app. Qed.

Lemma step_keys (groups : Groups) (r : Row.t) :
  dict_keys (step groups r) =
  if existsb (group_id_eqb (Row.connection_group_id r)) (dict_keys groups)
  then dict_keys groups
  else dict_keys groups ++ [Row.connection_group_id r].
Proof.
  unfold step. rewrite dict_update_keys, <- dict_mem_keys.
  destruct (dict_mem _ _ groups) eqn:E; [reflexivity|].
  now rewrite dict_set_keys, E.
Qed.

Lemma conns_of_step (g : option Z) (groups : Groups) (r : Row.t) :
  conns_of g (step groups r) =
  if group_id_eqb g (Row.connection_group_id r)
  then locate_and_fold r (conns_of (Row.connection_group_id r) groups)
  else conns_of g groups.
Proof.
  unfold conns_of, step.
  rewrite (dict_get_update group_id_eqb_eq).
  destruct (dict_mem _ _ groups) eqn:M.
  - rewrite dict_mem_get in M.
    destruct (group_id_eqb g _); [|reflexivity].
    destruct (dict_get _ _ groups); [reflexivity | discriminate].
  - rewrite !(dict_get_set group_id_eqb_eq), group_id_eqb_refl.
    rewrite dict_mem_get in M.
    destruct (group_id_eqb g _); [|reflexivity].
    destruct (dict_get _ _ groups); [discriminate | reflexivity].
Qed.

Lemma connection_at_step (g : option Z) (c : Z) (groups : Groups) (r : Row.t) :
  connection_at g c (step groups r) =
  if is_pair g c r then Some (fold_row r (target r groups))
  else connection_at g c groups.
Proof.
  unfold connection_at, target, connection_at, is_pair, in_group.
  rewrite conns_of_step, (group_id_eqb_sym (Row.connection_group_id r) g).
  destruct (group_id_eqb g _) eqn:E; simpl; [|reflexivity].
  rewrite find_locate_and_fold, (Z.eqb_sym (Row.connection_id r) c).
  apply group_id_eqb_eq in E. subst g.
  reflexivity.
Qed.

Lemma aggregate_keys (rows : list Row.t) :
  dict_keys (aggregate rows) =
  first_seen group_id_eqb (map Row.connection_group_id rows).
Proof.
  induction rows as [|r rows IH] using rev_ind; [reflexivity|].
  rewrite aggregate_snoc, step_keys, map_app. simpl.
  rewrite (first_seen_snoc group_id_eqb_eq), IH.
  now rewrite (existsb_first_seen group_id_eqb_eq).
Qed.

Lemma aggregate_keys_NoDup (rows : list Row.t) : NoDup (dict_keys (aggregate rows)).
Proof. rewrite aggregate_keys. apply (first_seen_NoDup group_id_eqb_eq). Qed.

Lemma rows_of_group_snoc (g : option Z) (rows : list Row.t) (r : Row.t) :
  rows_of_group g (rows ++ [r]) =
  if group_id_eqb g (Row.connection_group_id r)
  then rows_of_group g rows ++ [r] else rows_of_group g rows.
Proof.
  unfold rows_of_group. rewrite filter_app. simpl.
  unfold in_group at 2. rewrite group_id_eqb_sym.
  destruct (group_id_eqb g _); [reflexivity | apply app_nil_r].
Qed.

(** Within every group the identifiers sit in first-seen order. *)
Lemma aggregate_ids (g : option Z) (rows : list Row.t) :
  map Connection.connection_id (conns_of g (aggregate rows)) =
  first_seen_connections g rows.
Proof.
  unfold first_seen_connections.
  induction rows as [|r rows IH] using rev_ind; [reflexivity|].
  rewrite aggregate_snoc, conns_of_step, rows_of_group_snoc.
  destruct (group_id_eqb g _) eqn:E; [|exact IH].
  apply group_id_eqb_eq in E. subst g.
  rewrite locate_and_fold_ids, map_app. simpl.
  rewrite (first_seen_snoc Z.eqb_eq), IH.
  now rewrite (existsb_first_seen Z.eqb_eq).
Qed.

(** Every entry of the aggregate is the one its key looks up. *)
Lemma aggregate_entry (g : option Z) (grp : Group.t) (rows : list Row.t) :
  In (g, grp) (aggregate rows) ->
  conns_of g (aggregate rows) = Group.connections grp.
Proof.
  intro H. unfold conns_of.
  now rewrite (dict_get_In group_id_eqb_eq g grp _ (aggregate_keys_NoDup rows) H).
Qed.

Lemma aggregate_shape (rows : list Row.t) :
  shape (aggregate rows) = first_seen_layout rows.
Proof.
  unfold shape, first_seen_layout, first_seen_groups.
  rewrite <- aggregate_keys. unfold dict_keys. rewrite map_map.
  apply map_ext_in. intros [g grp] H. simpl.
  unfold connection_ids. now rewrite <- (aggregate_entry _ _ _ H), aggregate_ids.
Qed.

(** ** Counting connection objects *)

Lemma NoDup_count (c : Z) (l : list Z) :
  NoDup l ->
  List.length (filter (fun i => (i =? c)%Z) l) =
  if existsb (Z.eqb c) l then 1%nat else 0%nat.
Proof.
  induction 1 as [|a l Hnotin ND IH]; simpl; [reflexivity|].
  rewrite (Z.eqb_sym c a). destruct (a =? c)%Z eqn:E; simpl.
  - apply Z.eqb_eq in E. subst a. rewrite IH.
    destruct (existsb (Z.eqb c) l) eqn:E'; [|reflexivity].
    apply (existsb_eqb_In Z.eqb_eq) in E'. contradiction.
  - exact IH.
Qed.

Lemma copies_in_ids (c : Z) (conns : list Connection.t) :
  List.length (filter (has_id c) conns) =
  List.length (filter (fun i => (i =? c)%Z) (map Connection.connection_id conns)).
Proof.
  induction conns as [|x conns IH]; simpl; [reflexivity|].
  unfold has_id at 1. destruct (_ =? c)%Z; simpl; now rewrite IH.
Qed.

Lemma count_pair_absent (g : option Z) (c : Z) (groups : Groups) :
  ~ In g (dict_keys groups) -> count_pair g c groups = 0%nat.
Proof.
  unfold count_pair, dict_keys.
  induction groups as [|[k grp] groups IH]; simpl; [reflexivity|].
  intro H. destruct (group_id_eqb k g) eqn:E.
  - apply group_id_eqb_eq in E. tauto.
  - rewrite IH; tauto.
Qed.

(** With distinct keys the objects for a pair are those of the group the
    key looks up. *)
Lemma count_pair_lookup (g : option Z) (c : Z) (groups : Groups) :
  NoDup (dict_keys groups) ->
  count_pair g c groups = List.length (filter (has_id c) (conns_of g groups)).
Proof.
  unfold dict_keys, conns_of.
  induction groups as [|[k grp] groups IH]; simpl; [reflexivity|].
  intro ND. inversion ND as [|? ? Hnotin ND']; subst.
  unfold count_pair. simpl. fold (count_pair g c groups).
  rewrite (group_id_eqb_sym k g).
  destruct (group_id_eqb g k) eqn:E.
  - apply group_id_eqb_eq in E. subst k.
    rewrite (count_pair_absent g c groups Hnotin). unfold copies_in. lia.
  - now rewrite IH.
Qed.

Lemma existsb_is_pair (g : option Z) (c : Z) (rows : list Row.t) :
  existsb (Z.eqb c) (map Row.connection_id (rows_of_group g rows)) =
  existsb (is_pair g c) rows.
Proof.
  unfold rows_of_group, is_pair.
  induction rows as [|r rows IH]; simpl; [reflexivity|].
  destruct (in_group g r); simpl; [|exact IH].
  now rewrite (Z.eqb_sym c), IH.
Qed.

Lemma occurrences_existsb (g : option Z) (c : Z) (rows : list Row.t) :
  existsb (is_pair g c) rows = negb (occurrences g c rows =? 0)%nat.
Proof.
  unfold occurrences.
  induction rows as [|r rows IH]; simpl; [reflexivity|].
  destruct (is_pair g c r); simpl; [reflexivity | exact IH].
Qed.

(** One object for a pair that occurs, none for a pair that does not. *)
Lemma count_pair_aggregate (g : option Z) (c : Z) (rows : list Row.t) :
  count_pair g c (aggregate rows) =
  if existsb (is_pair g c) rows then 1%nat else 0%nat.
Proof.
  rewrite (count_pair_lookup g c (aggregate rows) (aggregate_keys_NoDup rows)).
  rewrite copies_in_ids, aggregate_ids.
  unfold first_seen_connections.
  rewrite NoDup_count by apply (first_seen_NoDup Z.eqb_eq).
  now rewrite (existsb_first_seen Z.eqb_eq), existsb_is_pair.
Qed.

(** A row whose pair was seen leaves keys and identifiers as they are. *)
Lemma first_seen_layout_seen (rows : list Row.t) (r : Row.t) :
  existsb (is_pair (Row.connection_group_id r) (Row.connection_id r)) rows = true ->
  first_seen_layout (rows ++ [r]) = first_seen_layout rows.
Proof.
  intro H. unfold first_seen_layout, first_seen_groups.
  rewrite map_app. simpl. rewrite (first_seen_snoc group_id_eqb_eq).
  assert (Hg : existsb (group_id_eqb (Row.connection_group_id r))
                 (map Row.connection_group_id rows) = true).
  { apply existsb_exists in H as (x & Hx & Hp).
    apply (existsb_eqb_In group_id_eqb_eq), in_map_iff. exists x. split; [|assumption].
    unfold is_pair, in_group in Hp. apply andb_true_iff in Hp as [Hp _].
    now apply group_id_eqb_eq in Hp. }
  rewrite Hg. apply map_ext. intro g.
  unfold first_seen_connections. rewrite rows_of_group_snoc.
  destruct (group_id_eqb g _) eqn:E; [|reflexivity].
  apply group_id_eqb_eq in E. subst g.
  rewrite map_app. simpl. rewrite (first_seen_snoc Z.eqb_eq).
  now rewrite existsb_is_pair, H.
Qed.

(** ** What a connection object holds *)

Lemma rows_of_pair_snoc (g : option Z) (c : Z) (rows : list Row.t) (r : Row.t) :
  rows_of_pair g c (rows ++ [r]) =
  if is_pair g c r then rows_of_pair g c rows ++ [r] else rows_of_pair g c rows.
Proof.
  unfold rows_of_pair. rewrite filter_app. simpl.
  destruct (is_pair g c r); [reflexivity | apply app_nil_r].
Qed.

Lemma is_pair_true (g : option Z) (c : Z) (r : Row.t) :
  is_pair g c r = true <-> Row.connection_group_id r = g /\ Row.connection_id r = c.
Proof.
  unfold is_pair, in_group.
  now rewrite andb_true_iff, group_id_eqb_eq, Z.eqb_eq.
Qed.

Lemma is_pair_self (r : Row.t) :
  is_pair (Row.connection_group_id r) (Row.connection_id r) r = true.
Proof. now apply is_pair_true. Qed.

(** The object for a pair is the fresh object of the first row of the
    pair with every row of the pair folded in, in input order. *)
Lemma aggregate_connection_at (g : option Z) (c : Z) (rows : list Row.t) :
  connection_at g c (aggregate rows) =
  match rows_of_pair g c rows with
  | [] => None
  | r0 :: rs => Some (folded (r0 :: rs) (new_connection r0))
  end.
Proof.
  induction rows as [|r rows IH] using rev_ind; [reflexivity|].
  rewrite aggregate_snoc, connection_at_step, rows_of_pair_snoc.
  destruct (is_pair g c r) eqn:E; [|exact IH].
  apply is_pair_true in E as [<- <-].
  unfold target. rewrite IH.
  destruct (rows_of_pair _ _ rows) as [|r0 rs]; simpl; [reflexivity|].
  unfold folded. simpl. now rewrite fold_left_app.
Qed.

Lemma folded_id (rs : list Row.t) (x : Connection.t) :
  Connection.connection_id (folded rs x) = Connection.connection_id x.
Proof.
  unfold folded. revert x.
  induction rs as [|r rs IH]; intro x; simpl; [reflexivity|].
  now rewrite IH, fold_row_id.
Qed.

Lemma folded_name (rs : list Row.t) (x : Connection.t) :
  Connection.name (folded rs x) = Connection.name x.
Proof.
  unfold folded. revert x.
  induction rs as [|r rs IH]; intro x; simpl; [reflexivity|].
  now rewrite IH, fold_row_name.
Qed.

Lemma folded_protocol (rs : list Row.t) (x : Connection.t) :
  Connection.protocol (folded rs x) = Connection.protocol x.
Proof.
  unfold folded. revert x.
  induction rs as [|r rs IH]; intro x; simpl; [reflexivity|].
  now rewrite IH, fold_row_protocol.
Qed.

(** A property of fresh objects that [fold_row] keeps holds for every
    connection object of the aggregate. *)
Lemma step_every_connection (P : Connection.t -> Prop) (groups : Groups) (r : Row.t) :
  P (new_connection r) ->
  (forall x, P x -> P (fold_row r x)) ->
  every_connection P groups ->
  every_connection P (step groups r).
Proof.
  intros Hnew Hfold Hall g grp x Hin Hx.
  unfold step in Hin.
  assert (Hall1 : every_connection P
            (if dict_mem group_id_eqb (Row.connection_group_id r) groups then groups
             else dict_set group_id_eqb (Row.connection_group_id r) (new_group r) groups)).
  { destruct (dict_mem _ _ groups); [assumption|].
    intros g' grp' x' Hin' Hx'.
    apply dict_set_In in Hin' as [Hin' | ->]; [now apply (Hall g' grp')|].
    destruct Hx'. }
  apply (dict_update_In group_id_eqb_eq) in Hin as [Hin | (grp0 & Hin & _ & ->)].
  - now apply (Hall1 g grp).
  - simpl in Hx. unfold locate_and_fold in Hx.
    assert (Hc : forall y,
               In y (match find (has_id (Row.connection_id r)) (Group.connections grp0) with
                     | Some _ => Group.connections grp0
                     | None => Group.connections grp0 ++ [new_connection r]
                     end) -> P y).
    { intros y Hy. destruct (find _ _).
      - now apply (Hall1 g grp0).
      - apply in_app_or in Hy as [Hy | [<- | []]]; [now apply (Hall1 g grp0) | assumption]. }
    apply update_first_In in Hx as [Hx | (y & Hy & ->)]; auto.
Qed.

Lemma aggregate_every_connection (P : Connection.t -> Prop) (rows : list Row.t) :
  (forall r, In r rows -> P (new_connection r)) ->
  (forall r x, In r rows -> P x -> P (fold_row r x)) ->
  every_connection P (aggregate rows).
Proof.
  induction rows as [|r rows IH] using rev_ind; intros Hnew Hfold.
  - intros g grp x [].
  - rewrite aggregate_snoc. apply step_every_connection.
    + apply Hnew, in_or_app. right. now left.
    + intros x. apply Hfold, in_or_app. right. now left.
    + apply IH.
      * intros r' H. apply Hnew, in_or_app. now left.
      * intros r' x H. apply Hfold, in_or_app. now left.
Qed.

(** ** Deduplication *)

(** C1. Dedup invariant: when the pair [(g, c)] is carried by more than
    one row, the aggregate holds exactly one connection object for it.  For
    every row [r] of the pair, with [pre] the rows before it: if [r] is the
    first of the pair it creates the object (none before, one after);
    otherwise it creates nothing (same keys and identifiers before and
    after) and the object found is the one it is folded into. *)
Theorem dedup_invariant (rows : list Row.t) (g : option Z) (c : Z) :
  (1 < occurrences g c rows)%nat ->
  count_pair g c (aggregate rows) = 1%nat
  /\ forall pre r post,
       rows = pre ++ r :: post ->
       is_pair g c r = true ->
       if (occurrences g c pre =? 0)%nat
       then count_pair g c (aggregate pre) = 0%nat
            /\ count_pair g c (aggregate (pre ++ [r])) = 1%nat
       else shape (aggregate (pre ++ [r])) = shape (aggregate pre)
            /\ exists x,
                 connection_at g c (aggregate pre) = Some x
                 /\ connection_at g c (aggregate (pre ++ [r])) = Some (fold_row r x).
Proof.
  intro Hocc. split.
  - rewrite count_pair_aggregate, occurrences_existsb.
    destruct (occurrences g c rows); [lia | reflexivity].
  - intros pre r post _ Hr.
    pose proof (occurrences_existsb g c pre) as Hpre.
    destruct (occurrences g c pre =? 0)%nat; simpl in Hpre.
    + rewrite !count_pair_aggregate, Hpre, existsb_app. simpl.
      now rewrite Hr, orb_true_r.
    + apply is_pair_true in Hr as [<- <-]. split.
      * rewrite !aggregate_shape. now apply first_seen_layout_seen.
      * rewrite aggregate_snoc, connection_at_step, is_pair_self.
        unfold target.
        destruct (connection_at _ _ (aggregate pre)) as [x|] eqn:E.
        -- exists x. split; reflexivity.
        -- exfalso. unfold connection_at in E.
           pose proof (find_existsb (has_id (Row.connection_id r))
                         (conns_of (Row.connection_group_id r) (aggregate pre))) as F.
           rewrite E, existsb_has_id, aggregate_ids in F.
           unfold first_seen_connections in F.
           rewrite (existsb_first_seen Z.eqb_eq), existsb_is_pair, Hpre in F.
           discriminate.
Qed.

Lemma dedup_invariant_witness :
  (1 < occurrences None 1 [row_alice; row_admins])%nat
  /\ count_pair None 1 (aggregate [row_alice; row_admins]) = 1%nat
  /\ count_pair None 1 (aggregate []) = 0%nat
  /\ count_pair None 1 (aggregate [row_alice]) = 1%nat
  /\ shape (aggregate [row_alice; row_admins]) = shape (aggregate [row_alice]).
Proof.
  assert (H : (1 < occurrences None 1 [row_alice; row_admins])%nat)
    by (vm_compute; lia).
  destruct (dedup_invariant [row_alice; row_admins] None 1 H) as [Hone Hrows].
  pose proof (Hrows [] row_alice [row_admins] eq_refl eq_refl) as [Hbefore Hafter].
  pose proof (Hrows [row_alice] row_admins [] eq_refl eq_refl) as [Hshape _].
  exact (conj H (conj Hone (conj Hbefore (conj Hafter Hshape)))).
Defined.

(** ** Connections and their groups *)

Lemma list_sum_indicator {A : Type} (p : A -> bool) (l : list A) :
  list_sum (map (fun k => if p k then 1%nat else 0%nat) l) = List.length (filter p l).
Proof.
  induction l as [|a l IH]; simpl; [reflexivity|].
  destruct (p a); simpl; now rewrite IH.
Qed.

Lemma filter_map_length {A B : Type} (p : B -> bool) (f : A -> B) (l : list A) :
  List.length (filter p (map f l)) = List.length (filter (fun x => p (f x)) l).
Proof.
  induction l as [|a l IH]; simpl; [reflexivity|].
  destruct (p (f a)); simpl; now rewrite IH.
Qed.

(** The copies of [c] a group object holds: one when its key comes with
    [c] in some row, none otherwise. *)
Lemma copies_in_entry (c : Z) (g : option Z) (grp : Group.t) (rows : list Row.t) :
  In (g, grp) (aggregate rows) ->
  copies_in c grp = if existsb (is_pair g c) rows then 1%nat else 0%nat.
Proof.
  intro H. unfold copies_in.
  rewrite <- (aggregate_entry _ _ _ H), copies_in_ids, aggregate_ids.
  unfold first_seen_connections.
  rewrite NoDup_count by apply (first_seen_NoDup Z.eqb_eq).
  now rewrite (existsb_first_seen Z.eqb_eq), existsb_is_pair.
Qed.

(** The exported list holds one copy of [c] for every group identifier
    that [c] comes with. *)
Lemma count_id_aggregate (c : Z) (rows : list Row.t) :
  count_id c (dict_values (aggregate rows)) =
  List.length (filter (fun g => existsb (is_pair g c) rows) (first_seen_groups rows)).
Proof.
  unfold count_id, dict_values, first_seen_groups.
  rewrite map_map, <- aggregate_keys. unfold dict_keys.
  rewrite <- list_sum_indicator, map_map.
  f_equal. apply map_ext_in. intros [g grp] H. simpl.
  now apply copies_in_entry.
Qed.

Lemma groups_holding_aggregate (c : Z) (rows : list Row.t) :
  groups_holding c (dict_values (aggregate rows)) =
  List.length (filter (fun g => existsb (is_pair g c) rows) (first_seen_groups rows)).
Proof.
  unfold groups_holding, dict_values, first_seen_groups.
  rewrite filter_map_length, <- aggregate_keys. unfold dict_keys.
  rewrite filter_map_length, <- !list_sum_indicator.
  f_equal. apply map_ext_in. intros [g grp] H. simpl.
  pose proof (copies_in_entry c g grp rows H) as Hc.
  unfold copies_in in Hc.
  destruct (existsb (has_id c) (Group.connections grp)) eqn:E.
  - destruct (existsb (is_pair g c) rows); [reflexivity|].
    apply existsb_exists in E as (x & Hx & Hp).
    assert (Hin : In x (filter (has_id c) (Group.connections grp)))
      by now apply filter_In.
    destruct (filter (has_id c) (Group.connections grp)); [destruct Hin | discriminate].
  - destruct (existsb (is_pair g c) rows); [|reflexivity].
    destruct (filter (has_id c) (Group.connections grp)) as [|x l] eqn:F; [discriminate|].
    assert (Hin : In x (filter (has_id c) (Group.connections grp)))
      by (rewrite F; now left).
    apply filter_In in Hin as [Hin Hp].
    assert (existsb (has_id c) (Group.connections grp) = true)
      by (apply existsb_exists; now exists x).
    congruence.
Qed.

(** When every row that mentions [c] carries group [g], only [g] comes
    with [c]. *)
Lemma consistent_group (c : Z) (g : option Z) (rows : list Row.t) :
  existsb (is_pair g c) rows = true ->
  (forall r, In r rows -> mentions c r = true -> Row.connection_group_id r = g) ->
  List.length (filter (fun k => existsb (is_pair k c) rows) (first_seen_groups rows)) = 1%nat.
Proof.
  intros Hocc Hcons.
  rewrite (filter_ext _ (group_id_eqb g)).
  - unfold first_seen_groups.
    rewrite (NoDup_filter_eqb group_id_eqb_eq) by apply (first_seen_NoDup group_id_eqb_eq).
    rewrite (existsb_first_seen group_id_eqb_eq).
    replace (existsb (group_id_eqb g) (map Row.connection_group_id rows)) with true;
      [reflexivity|].
    symmetry. apply (existsb_eqb_In group_id_eqb_eq), in_map_iff.
    apply existsb_exists in Hocc as (r & Hr & Hp).
    apply is_pair_true in Hp as [Hg _]. now exists r.
  - intro k. apply eq_true_iff_eq. rewrite group_id_eqb_eq, existsb_exists. split.
    + intros (r & Hr & Hp). apply is_pair_true in Hp as [<- Hc].
      symmetry. apply Hcons; [assumption|]. unfold mentions. now apply Z.eqb_eq.
    + intros <-. now apply existsb_exists.
Qed.

(** C2, as stated, fails: connection 7 arriving first under group 1 and
    then under group 2 is exported twice, once under each group. *)
Lemma first_seen_group_wins_fails :
  ~ first_seen_group_wins [bare_row 7 (Some 1%Z); bare_row 7 (Some 2%Z)].
Proof.
  intro H.
  destruct (H 7%Z (bare_row 7 (Some 1%Z)) eq_refl) as [Hone _].
  vm_compute in Hone. discriminate.
Qed.

(** C2, amended.  The generator of line 117 searches the row's own group
    only, so a connection object belongs to a pair of group identifier and
    connection identifier.  For a pair [(g, c)] that occurs in the input:
    group [g] holds exactly one object for [c]; the exported list holds as
    many objects for [c], in as many groups, as there are distinct group
    identifiers coming with [c]; and when every row that mentions [c]
    carries [g], that is exactly one object in exactly one group. *)
Theorem one_copy_per_group (rows : list Row.t) (g : option Z) (c : Z) :
  existsb (is_pair g c) rows = true ->
  count_pair g c (aggregate rows) = 1%nat
  /\ count_id c (dict_values (aggregate rows)) =
     List.length (filter (fun k => existsb (is_pair k c) rows) (first_seen_groups rows))
  /\ groups_holding c (dict_values (aggregate rows)) =
     count_id c (dict_values (aggregate rows))
  /\ ((forall r, In r rows -> mentions c r = true -> Row.connection_group_id r = g) ->
      count_id c (dict_values (aggregate rows)) = 1%nat
      /\ groups_holding c (dict_values (aggregate rows)) = 1%nat).
Proof.
  intro Hocc. split; [|split; [|split]].
  - now rewrite count_pair_aggregate, Hocc.
  - apply count_id_aggregate.
  - now rewrite groups_holding_aggregate, count_id_aggregate.
  - intro Hcons. rewrite groups_holding_aggregate, count_id_aggregate.
    split; now apply consistent_group with (g := g).
Qed.

Lemma one_copy_per_group_witness :
  count_pair (Some 1%Z) 7
    (aggregate [bare_row 7 (Some 1%Z); bare_row 7 (Some 2%Z)]) = 1%nat
  /\ count_id 7 (dict_values (aggregate [bare_row 7 (Some 1%Z); bare_row 7 (Some 2%Z)]))
     = 2%nat
  /\ count_id 7 (dict_values (aggregate [bare_row 7 (Some 1%Z); bare_row 7 (Some 1%Z)]))
     = 1%nat.
Proof.
  destruct (one_copy_per_group
              [bare_row 7 (Some 1%Z); bare_row 7 (Some 2%Z)] (Some 1%Z) 7 eq_refl)
    as (Hpair & Hcopies & _ & _).
  destruct (one_copy_per_group
              [bare_row 7 (Some 1%Z); bare_row 7 (Some 1%Z)] (Some 1%Z) 7 eq_refl)
    as (_ & _ & _ & Hsame).
  refine (conj Hpair (conj Hcopies (proj1 (Hsame _)))).
  intros r [<- | [<- | []]] _; reflexivity.
Defined.

(** ** Empty result set *)

(** C3, as stated, fails: with no rows the function returns at line 103
    and no document is produced. *)
Lemma empty_export_produced_fails : ~ empty_export_produced [].
Proof.
  intros (doc & H & _). discriminate H.
Qed.

(** C3, amended.  With no rows the run ends at the guard of lines
    101-103 without raising and without producing a document, whatever the
    enum metadata was; the loop itself, run on no rows, would leave no
    group.  With at least one row a document is produced and its
    connections list is the list of values of the aggregate. *)
Theorem empty_result_returns_early (enum_fields : list EnumField.t) :
  export_to_json enum_fields [] = NoDataFound
  /\ dict_values (aggregate []) = []
  /\ forall r rows,
       export_to_json enum_fields (r :: rows) =
       Exported {| Document.connections := dict_values (aggregate (r :: rows));
                   Document.dropdown_options := fetch_dropdown_options enum_fields |}.
Proof.
  repeat split.
Qed.

(** ** Users and groups of a connection *)

Lemma facets_keep_entities (r : Row.t) (x : Connection.t) :
  Connection.users (add_attribute r (add_parameter r x)) = Connection.users x
  /\ Connection.groups (add_attribute r (add_parameter r x)) = Connection.groups x.
Proof.
  unfold add_attribute, add_parameter.
  destruct (Row.attribute_name r) as [k|], (Row.parameter_name r) as [k'|];
    try destruct (Py.truthy (Some k)); try destruct (Py.truthy (Some k'));
    split; reflexivity.
Qed.

Lemma fold_row_users (r : Row.t) (x : Connection.t) :
  Connection.users (fold_row r x) =
  if is_user r && negb (Py.contains (Row.entity_name r) (Connection.users x))
  then Connection.users x ++ [Row.entity_name r]
  else Connection.users x.
Proof.
  unfold fold_row.
  destruct (facets_keep_entities r x) as [Hu _].
  set (y := add_attribute r (add_parameter r x)) in *.
  assert (Hg : forall z, Connection.users (add_group r z) = Connection.users z).
  { intro z. unfold add_group. destruct (_ && _); reflexivity. }
  rewrite Hg. unfold add_user, is_user. rewrite Hu.
  destruct (_ && _); simpl; [reflexivity | exact Hu].
Qed.

Lemma fold_row_groups (r : Row.t) (x : Connection.t) :
  Connection.groups (fold_row r x) =
  if is_user_group r && negb (Py.contains (Row.entity_name r) (Connection.groups x))
  then Connection.groups x ++ [Row.entity_name r]
  else Connection.groups x.
Proof.
  unfold fold_row.
  destruct (facets_keep_entities r x) as [_ Hg].
  set (y := add_attribute r (add_parameter r x)) in *.
  assert (Hu : Connection.groups (add_user r y) = Connection.groups y).
  { unfold add_user. destruct (_ && _); reflexivity. }
  unfold add_group, is_user_group. rewrite Hu, Hg.
  destruct (_ && _); simpl; [reflexivity | now rewrite Hu].
Qed.

Lemma snoc_differs {A : Type} (l : list A) (a : A) : l ++ [a] <> l.
Proof.
  intro H. apply (f_equal (@List.length A)) in H.
  rewrite length_app in H. simpl in H. lia.
Qed.

Lemma negb_contains (x : option string) (l : list (option string)) :
  negb (Py.contains x l) = true <-> ~ In x l.
Proof.
  rewrite negb_true_iff, <- contains_In. now destruct (Py.contains x l).
Qed.

(** C4, as stated, fails: a USER row whose entity name is NULL appends
    the NULL to the users list. *)
Lemma entity_rule_as_specified_fails : ~ entity_rule_as_specified [] row_nameless_user.
Proof.
  intro H.
  destruct (H (fold_row row_nameless_user (new_connection row_nameless_user)) eq_refl)
    as (_ & _ & Hnull).
  destruct (Hnull eq_refl) as [Hu _].
  vm_compute in Hu. discriminate.
Qed.

Lemma is_user_typed (r : Row.t) :
  is_user r = true -> Row.entity_type r = Some "USER".
Proof. unfold is_user. apply nullable_eqb_eq. Qed.

Lemma is_user_group_typed (r : Row.t) :
  is_user_group r = true -> Row.entity_type r = Some "USER_GROUP".
Proof. unfold is_user_group. apply nullable_eqb_eq. Qed.

(** What lines 141-146 do to the two lists of a connection object. *)
Lemma fold_row_entities (r : Row.t) (x : Connection.t) :
  (Connection.users (fold_row r x) = Connection.users x ++ [Row.entity_name r]
   <-> is_user r = true /\ ~ In (Row.entity_name r) (Connection.users x))
  /\ (Connection.users (fold_row r x) = Connection.users x
      <-> ~ (is_user r = true /\ ~ In (Row.entity_name r) (Connection.users x)))
  /\ (Connection.groups (fold_row r x) = Connection.groups x ++ [Row.entity_name r]
      <-> is_user_group r = true /\ ~ In (Row.entity_name r) (Connection.groups x))
  /\ (Connection.groups (fold_row r x) = Connection.groups x
      <-> ~ (is_user_group r = true /\ ~ In (Row.entity_name r) (Connection.groups x))).
Proof.
  rewrite fold_row_users, fold_row_groups.
  rewrite <- !negb_contains, <- !andb_true_iff.
  pose proof (snoc_differs (Connection.users x) (Row.entity_name r)) as Du.
  pose proof (snoc_differs (Connection.groups x) (Row.entity_name r)) as Dg.
  destruct (is_user r && _), (is_user_group r && _);
    repeat split; try tauto; try congruence; try discriminate.
Qed.

(** C4, amended.  Lines 141 and 145 test the entity type and membership,
    not the entity name.  In any state of the loop, the connection a row
    belongs to has the row's entity name (NULL included) appended to its
    users list if and only if the entity type is ['USER'] and the name is
    not yet in the list, and the list is left as it was otherwise; likewise
    for ['USER_GROUP'] and the groups list.  A row whose entity type is NULL
    contributes to neither list.  For a row whose entity name is NULL only
    when its entity type is NULL too, this is the rule of the
    specification. *)
Theorem entity_rule (groups : Groups) (r : Row.t) :
  let before := target r groups in
  exists after,
    connection_at (Row.connection_group_id r) (Row.connection_id r) (step groups r)
    = Some after
    /\ (Connection.users after = Connection.users before ++ [Row.entity_name r]
        <-> is_user r = true /\ ~ In (Row.entity_name r) (Connection.users before))
    /\ (Connection.users after = Connection.users before
        <-> ~ (is_user r = true /\ ~ In (Row.entity_name r) (Connection.users before)))
    /\ (Connection.groups after = Connection.groups before ++ [Row.entity_name r]
        <-> is_user_group r = true /\ ~ In (Row.entity_name r) (Connection.groups before))
    /\ (Connection.groups after = Connection.groups before
        <-> ~ (is_user_group r = true
               /\ ~ In (Row.entity_name r) (Connection.groups before)))
    /\ (Row.entity_type r = None ->
        Connection.users after = Connection.users before
        /\ Connection.groups after = Connection.groups before)
    /\ ((Row.entity_name r = None -> Row.entity_type r = None) ->
        entity_rule_as_specified groups r).
Proof.
  intro x. exists (fold_row r x).
  assert (Hat : connection_at (Row.connection_group_id r) (Row.connection_id r)
                  (step groups r) = Some (fold_row r x))
    by now rewrite connection_at_step, is_pair_self.
  destruct (fold_row_entities r x) as (Hu1 & Hu2 & Hg1 & Hg2).
  assert (Hnone : Row.entity_type r = None ->
                  Connection.users (fold_row r x) = Connection.users x
                  /\ Connection.groups (fold_row r x) = Connection.groups x).
  { intro Hn. split.
    - apply Hu2. intros [H _]. apply is_user_typed in H. congruence.
    - apply Hg2. intros [H _]. apply is_user_group_typed in H. congruence. }
  repeat (split; [assumption|]).
  intros Hwf. unfold entity_rule_as_specified. fold x.
  intros y Hy. rewrite Hat in Hy. injection Hy as <-.
  split; [|split].
  - rewrite Hu1. split; [|tauto].
    intros [H1 H2]. repeat split; try assumption.
    intro Hn. apply Hwf in Hn. apply is_user_typed in H1. congruence.
  - rewrite Hg1. split; [|tauto].
    intros [H1 H2]. repeat split; try assumption.
    intro Hn. apply Hwf in Hn. apply is_user_group_typed in H1. congruence.
  - intro Hn. now apply Hnone, Hwf.
Qed.

Lemma entity_rule_witness : entity_rule_as_specified [] row_alice.
Proof.
  destruct (entity_rule [] row_alice) as (y & _ & _ & _ & _ & _ & _ & Hspec).
  apply Hspec. discriminate.
Defined.

Lemma filter_all {A : Type} (p : A -> bool) (l : list A) :
  (forall x, In x l -> p x = true) -> filter p l = l.
Proof.
  induction l as [|a l IH]; simpl; intro H; [reflexivity|].
  rewrite (H a) by now left. f_equal. apply IH. intros x Hx. apply H. now right.
Qed.

(** A list without duplicates is its own sequence of first occurrences,
    so [len(l) == len(set(l))]. *)
Lemma first_seen_nullable_NoDup (l : list (option string)) :
  NoDup l -> first_seen (Py.opt_eqb String.eqb) l = l.
Proof.
  induction 1 as [|a l Hnotin ND IH]; simpl; [reflexivity|].
  rewrite IH. f_equal. apply filter_all. intros x Hx.
  destruct (Py.opt_eqb String.eqb a x) eqn:E; [|reflexivity].
  apply nullable_eqb_eq in E. subst. contradiction.
Qed.

Lemma NoDup_snoc {A : Type} (l : list A) (a : A) :
  NoDup l -> ~ In a l -> NoDup (l ++ [a]).
Proof.
  intros ND Hnotin. apply NoDup_app. repeat split.
  - assumption.
  - constructor; [intros [] | constructor].
  - intros x Hx [<- | []]. contradiction.
Qed.

Lemma fold_row_NoDup (r : Row.t) (x : Connection.t) :
  NoDup (Connection.users x) /\ NoDup (Connection.groups x) ->
  NoDup (Connection.users (fold_row r x)) /\ NoDup (Connection.groups (fold_row r x)).
Proof.
  intros [Hu Hg]. rewrite fold_row_users, fold_row_groups. split.
  - destruct (is_user r); simpl; [|assumption].
    destruct (Py.contains _ _) eqn:E; simpl; [assumption|].
    apply NoDup_snoc; [assumption|]. rewrite <- contains_In. congruence.
  - destruct (is_user_group r); simpl; [|assumption].
    destruct (Py.contains _ _) eqn:E; simpl; [assumption|].
    apply NoDup_snoc; [assumption|]. rewrite <- contains_In. congruence.
Qed.

(** From the aggregate to the exported document. *)
Lemma exported_connections (enum_fields : list EnumField.t) (rows : list Row.t)
      (doc : Document.t) :
  export_to_json enum_fields rows = Exported doc ->
  Document.connections doc = dict_values (aggregate rows)
  /\ Document.dropdown_options doc = fetch_dropdown_options enum_fields.
Proof.
  unfold export_to_json. destruct rows; [discriminate|].
  intro H. injection H as <-. split; reflexivity.
Qed.

Lemma exported_every_connection (P : Connection.t -> Prop)
      (enum_fields : list EnumField.t) (rows : list Row.t) (doc : Document.t)
      (grp : Group.t) (x : Connection.t) :
  every_connection P (aggregate rows) ->
  export_to_json enum_fields rows = Exported doc ->
  In grp (Document.connections doc) ->
  In x (Group.connections grp) ->
  P x.
Proof.
  intros Hall Hexp Hgrp Hx.
  apply exported_connections in Hexp as [Hc _]. rewrite Hc in Hgrp.
  unfold dict_values in Hgrp. apply in_map_iff in Hgrp as ([g grp'] & <- & Hin).
  now apply (Hall g grp').
Qed.

(** C5. User/group set invariant: in every connection object of the
    exported document the users list and the groups list are free of
    duplicates, and their lengths equal their numbers of distinct entries
    ([len(users) == len(set(users))], likewise for groups), whatever the
    input rows are. *)
Theorem users_groups_no_duplicates (enum_fields : list EnumField.t) (rows : list Row.t)
        (doc : Document.t) (grp : Group.t) (x : Connection.t) :
  export_to_json enum_fields rows = Exported doc ->
  In grp (Document.connections doc) ->
  In x (Group.connections grp) ->
  NoDup (Connection.users x)
  /\ NoDup (Connection.groups x)
  /\ List.length (Connection.users x)
     = distinct (Py.opt_eqb String.eqb) (Connection.users x)
  /\ List.length (Connection.groups x)
     = distinct (Py.opt_eqb String.eqb) (Connection.groups x).
Proof.
  intros Hexp Hgrp Hx.
  assert (H : NoDup (Connection.users x) /\ NoDup (Connection.groups x)).
  { apply (exported_every_connection
             (fun y => NoDup (Connection.users y) /\ NoDup (Connection.groups y))
             enum_fields rows doc grp x); try assumption.
    apply aggregate_every_connection.
    - intros r _. simpl. split; constructor.
    - intros r y _. apply fold_row_NoDup. }
  destruct H as [Hu Hg]. unfold distinct.
  rewrite !first_seen_nullable_NoDup by assumption. auto.
Qed.

Lemma users_groups_no_duplicates_witness :
  NoDup (Connection.users scenario_connection)
  /\ NoDup (Connection.groups scenario_connection)
  /\ List.length (Connection.users scenario_connection)
     = distinct (Py.opt_eqb String.eqb) (Connection.users scenario_connection)
  /\ List.length (Connection.groups scenario_connection)
     = distinct (Py.opt_eqb String.eqb) (Connection.groups scenario_connection).
Proof.
  apply (users_groups_no_duplicates [] [row_alice; row_alice; row_admins]
           scenario_document scenario_group scenario_connection).
  - reflexivity.
  - left. reflexivity.
  - left. reflexivity.
Defined.

(** ** Names and defaults *)

Lemma dict_get_step (g : option Z) (groups : Groups) (r : Row.t) :
  option_map Group.group_name (dict_get group_id_eqb g (step groups r)) =
  if group_id_eqb g (Row.connection_group_id r)
  then Some (match dict_get group_id_eqb (Row.connection_group_id r) groups with
             | Some grp => Group.group_name grp
             | None => Py.or_else (Row.group_name r) "ROOT"
             end)
  else option_map Group.group_name (dict_get group_id_eqb g groups).
Proof.
  unfold step. rewrite (dict_get_update group_id_eqb_eq).
  destruct (dict_mem _ _ groups) eqn:M; rewrite dict_mem_get in M.
  - destruct (group_id_eqb g _); [|reflexivity].
    destruct (dict_get _ _ groups); [reflexivity | discriminate].
  - rewrite !(dict_get_set group_id_eqb_eq), group_id_eqb_refl.
    destruct (group_id_eqb g _); [|reflexivity].
    destruct (dict_get _ _ groups); [discriminate | reflexivity].
Qed.

(** A group keeps the name its first row gave it. *)
Lemma aggregate_group_name (g : option Z) (rows : list Row.t) :
  option_map Group.group_name (dict_get group_id_eqb g (aggregate rows)) =
  first_seen_group_name g rows.
Proof.
  unfold first_seen_group_name.
  induction rows as [|r rows IH] using rev_ind; [reflexivity|].
  rewrite aggregate_snoc, dict_get_step, rows_of_group_snoc.
  destruct (group_id_eqb g _) eqn:E; [|exact IH].
  apply group_id_eqb_eq in E. subst g.
  destruct (dict_get _ _ (aggregate rows)) as [grp|];
    destruct (rows_of_group _ rows) as [|r0 rs]; simpl in *;
    try discriminate; [|reflexivity].
  now injection IH as ->.
Qed.

(** A connection keeps the name and protocol its first row gave it. *)
Lemma first_row_decides (g : option Z) (c : Z) (rows : list Row.t)
      (r0 : Row.t) (rs : list Row.t) :
  rows_of_pair g c rows = r0 :: rs ->
  exists x,
    connection_at g c (aggregate rows) = Some x
    /\ Connection.connection_id x = c
    /\ Connection.name x
       = Py.or_else (Row.name r0) ("Unnamed Connection " ++ Py.str_of_int c)%string
    /\ Connection.protocol x = Py.or_else (Row.protocol r0) "ssh".
Proof.
  intro H. rewrite aggregate_connection_at, H.
  assert (Hc : Row.connection_id r0 = c).
  { assert (Hin : In r0 (rows_of_pair g c rows)) by (rewrite H; now left).
    unfold rows_of_pair in Hin. apply filter_In in Hin as [_ Hp].
    now apply is_pair_true in Hp. }
  eexists. split; [reflexivity|].
  rewrite folded_id, folded_name, folded_protocol. simpl. rewrite Hc. auto.
Qed.

(** The group that holds the object the generator finds. *)
Lemma connection_at_located (g : option Z) (c : Z) (groups : Groups) (x : Connection.t) :
  connection_at g c groups = Some x ->
  exists grp,
    dict_get group_id_eqb g groups = Some grp
    /\ In grp (dict_values groups)
    /\ In x (Group.connections grp).
Proof.
  unfold connection_at, conns_of.
  destruct (dict_get group_id_eqb g groups) as [grp|] eqn:E; [|discriminate].
  intro H. exists grp. split; [reflexivity|]. split.
  - apply (dict_get_Some_In group_id_eqb_eq) in E.
    unfold dict_values. change grp with (snd (g, grp)). now apply in_map.
  - now apply find_some in H.
Qed.

(** C6. Default substitution.  For every group [g] and every connection
    identifier [c], let [r0] be the first row that introduces connection [c]
    in group [g].  The exported connection object for it has name
    ["Unnamed Connection {c}"] when [r0] has a NULL name (for [c = 42],
    ["Unnamed Connection 42"]) and protocol ["ssh"] when [r0] has a NULL
    protocol.  For every group [g], let [r1] be the first row that
    introduces it: the exported group object has name ["ROOT"] when [r1] has
    a NULL group name. *)
Theorem default_substitution (rows : list Row.t) (g : option Z) :
  (forall c r0 rs,
      rows_of_pair g c rows = r0 :: rs ->
      exists grp x,
        In grp (dict_values (aggregate rows))
        /\ In x (Group.connections grp)
        /\ dict_get group_id_eqb g (aggregate rows) = Some grp
        /\ connection_at g c (aggregate rows) = Some x
        /\ Connection.connection_id x = c
        /\ (Row.name r0 = None ->
            Connection.name x = ("Unnamed Connection " ++ Py.str_of_int c)%string)
        /\ (Row.name r0 = None -> c = 42%Z ->
            Connection.name x = "Unnamed Connection 42")
        /\ (Row.protocol r0 = None -> Connection.protocol x = "ssh"))
  /\ (forall r1 rs1,
         rows_of_group g rows = r1 :: rs1 ->
         exists grp,
           In grp (dict_values (aggregate rows))
           /\ dict_get group_id_eqb g (aggregate rows) = Some grp
           /\ (Row.group_name r1 = None -> Group.group_name grp = "ROOT")).
Proof.
  split.
  - intros c r0 rs H.
    destruct (first_row_decides g c rows r0 rs H) as (x & Hat & Hid & Hname & Hproto).
    destruct (connection_at_located g c (aggregate rows) x Hat)
      as (grp & Hget & Hgrp & Hx).
    exists grp, x. repeat (split; [assumption|]).
    split; [|split].
    + intro Hn. now rewrite Hname, Hn.
    + intros Hn ->. rewrite Hname, Hn. reflexivity.
    + intro Hp. now rewrite Hproto, Hp.
  - intros r1 rs1 Hrows.
    pose proof (aggregate_group_name g rows) as Hg.
    unfold first_seen_group_name in Hg. rewrite Hrows in Hg.
    destruct (dict_get group_id_eqb g (aggregate rows)) as [grp|] eqn:Hget;
      [|discriminate Hg].
    simpl in Hg. injection Hg as Hg.
    exists grp. split; [|split; [reflexivity|]].
    + apply (dict_get_Some_In group_id_eqb_eq) in Hget.
      unfold dict_values. change grp with (snd (g, grp)). now apply in_map.
    + intro Hn. now rewrite Hg, Hn.
Qed.

Lemma default_substitution_witness :
  (exists grp x,
      In grp (dict_values (aggregate [bare_row 42 None; bare_row 7 (Some 5%Z)]))
      /\ In x (Group.connections grp)
      /\ Connection.name x = "Unnamed Connection 42"
      /\ Connection.protocol x = "ssh"
      /\ Group.group_name grp = "ROOT")
  /\ (exists grp x,
         In grp (dict_values (aggregate [bare_row 42 None; bare_row 7 (Some 5%Z)]))
         /\ In x (Group.connections grp)
         /\ Connection.name x = "Unnamed Connection 7"
         /\ Connection.protocol x = "ssh"
         /\ Group.group_name grp = "ROOT").
Proof.
  destruct (default_substitution [bare_row 42 None; bare_row 7 (Some 5%Z)] None)
    as (Hconn & Hgroup).
  destruct (Hconn 42%Z (bare_row 42 None) [] eq_refl)
    as (grp & x & Hgrp & Hx & Hget & _ & _ & _ & Hname & Hproto).
  destruct (Hgroup (bare_row 42 None) [] eq_refl) as (grp' & _ & Hget' & Hroot).
  assert (grp' = grp) as -> by congruence.
  destruct (default_substitution [bare_row 42 None; bare_row 7 (Some 5%Z)] (Some 5%Z))
    as (Hconn5 & Hgroup5).
  destruct (Hconn5 7%Z (bare_row 7 (Some 5%Z)) [] eq_refl)
    as (grp5 & x5 & Hgrp5 & Hx5 & Hget5 & _ & _ & Hname5 & _ & Hproto5).
  destruct (Hgroup5 (bare_row 7 (Some 5%Z)) [] eq_refl) as (grp5' & _ & Hget5' & Hroot5).
  assert (grp5' = grp5) as -> by congruence.
  split.
  - exists grp, x.
    exact (conj Hgrp (conj Hx (conj (Hname eq_refl eq_refl)
             (conj (Hproto eq_refl) (Hroot eq_refl))))).
  - exists grp5, x5.
    exact (conj Hgrp5 (conj Hx5 (conj (Hname5 eq_refl)
             (conj (Hproto5 eq_refl) (Hroot5 eq_refl))))).
Defined.

(** ** Order of groups and connections *)

Lemma aggregate_lookup (g : option Z) (grp : Group.t) (rows : list Row.t) :
  In (g, grp) (aggregate rows) ->
  dict_get group_id_eqb g (aggregate rows) = Some grp.
Proof.
  apply (dict_get_In group_id_eqb_eq), aggregate_keys_NoDup.
Qed.

(** C7. Order preservation.  The group objects of the exported document
    stand in the order in which their identifiers first occur in the input:
    the i-th group object has the connections and the name of the i-th
    distinct group identifier, and its connections stand in the order in
    which their identifiers first occur among the rows of that group. *)
Theorem order_preservation (enum_fields : list EnumField.t) (rows : list Row.t)
        (doc : Document.t) :
  export_to_json enum_fields rows = Exported doc ->
  map connection_ids (Document.connections doc)
  = map (fun g => first_seen_connections g rows) (first_seen_groups rows)
  /\ map (fun grp => Some (Group.group_name grp)) (Document.connections doc)
     = map (fun g => first_seen_group_name g rows) (first_seen_groups rows)
  /\ dict_keys (aggregate rows) = first_seen_groups rows
  /\ shape (aggregate rows) = first_seen_layout rows.
Proof.
  intro Hexp. apply exported_connections in Hexp as [-> _].
  split; [|split; [|split]].
  - transitivity (map snd (shape (aggregate rows))).
    + unfold shape, dict_values. now rewrite !map_map.
    + rewrite aggregate_shape. unfold first_seen_layout. rewrite map_map.
      reflexivity.
  - unfold first_seen_groups. rewrite <- aggregate_keys.
    unfold dict_values, dict_keys. rewrite !map_map.
    apply map_ext_in. intros [g grp] H. simpl.
    now rewrite <- aggregate_group_name, (aggregate_lookup g grp rows H).
  - apply aggregate_keys.
  - apply aggregate_shape.
Qed.

Lemma order_preservation_witness :
  map connection_ids (Document.connections ordering_document)
  = [[5%Z; 4%Z]; [3%Z]]
  /\ dict_keys (aggregate ordering_rows) = [Some 2%Z; None].
Proof.
  assert (H : export_to_json [] ordering_rows = Exported ordering_document)
    by reflexivity.
  destruct (order_preservation [] ordering_rows ordering_document H)
    as (Hids & _ & Hkeys & _).
  split; [exact Hids | exact Hkeys].
Defined.

(** ** Empty strings *)

Lemma or_else_blank (x : option string) (d : string) :
  Py.or_else (blank_to_null x) d = Py.or_else x d.
Proof.
  unfold blank_to_null. destruct x as [s|]; simpl; [|reflexivity].
  destruct (s =? "")%string eqn:E; simpl; [reflexivity | now rewrite E].
Qed.

Lemma new_connection_nullify (r : Row.t) : new_connection (nullify r) = new_connection r.
Proof. unfold new_connection. simpl. now rewrite !or_else_blank. Qed.

Lemma new_group_nullify (r : Row.t) : new_group (nullify r) = new_group r.
Proof. unfold new_group. simpl. now rewrite or_else_blank. Qed.

Lemma fold_row_nullify (r : Row.t) (x : Connection.t) :
  fold_row (nullify r) x = fold_row r x.
Proof.
  unfold fold_row.
  assert (Hp : forall y, add_parameter (nullify r) y = add_parameter r y).
  { intro y. unfold add_parameter, nullify, blank_to_null.
    cbn [Row.parameter_name Row.parameter_value].
    destruct (Row.parameter_name r) as [k|]; [|reflexivity].
    destruct (Py.truthy (Some k)) eqn:E; cbv beta iota; rewrite ?E; reflexivity. }
  assert (Ha : forall y, add_attribute (nullify r) y = add_attribute r y).
  { intro y. unfold add_attribute, nullify, blank_to_null.
    cbn [Row.attribute_name Row.attribute_value].
    destruct (Row.attribute_name r) as [k|]; [|reflexivity].
    destruct (Py.truthy (Some k)) eqn:E; cbv beta iota; rewrite ?E; reflexivity. }
  now rewrite Hp, Ha.
Qed.

Lemma update_first_ext {A : Type} (p : A -> bool) (f f' : A -> A) (l : list A) :
  (forall x, f x = f' x) -> update_first p f l = update_first p f' l.
Proof.
  intro H. induction l as [|a l IH]; simpl; [reflexivity|].
  now rewrite H, IH.
Qed.

Lemma dict_update_ext {K V : Type} (eqb : K -> K -> bool) (k : K) (f f' : V -> V)
      (d : dict K V) :
  (forall v, f v = f' v) -> dict_update eqb k f d = dict_update eqb k f' d.
Proof.
  intro H. induction d as [|[k0 v0] d IH]; simpl; [reflexivity|].
  now rewrite H, IH.
Qed.

Lemma step_nullify (groups : Groups) (r : Row.t) :
  step groups (nullify r) = step groups r.
Proof.
  unfold step. rewrite new_group_nullify. simpl.
  apply dict_update_ext. intro grp. f_equal.
  unfold locate_and_fold. rewrite new_connection_nullify. simpl.
  apply update_first_ext, fold_row_nullify.
Qed.

Lemma aggregate_nullify (rows : list Row.t) :
  aggregate (map nullify rows) = aggregate rows.
Proof.
  induction rows as [|r rows IH] using rev_ind; [reflexivity|].
  rewrite map_app. change (map nullify [r]) with [nullify r].
  now rewrite !aggregate_snoc, IH, step_nullify.
Qed.

Lemma fold_row_parameters (r : Row.t) (x : Connection.t) :
  Connection.parameters (fold_row r x) =
  match Row.parameter_name r with
  | Some k =>
      if Py.truthy (Some k)
      then dict_set String.eqb k (Row.parameter_value r) (Connection.parameters x)
      else Connection.parameters x
  | None => Connection.parameters x
  end.
Proof.
  unfold fold_row, add_group, add_user, add_attribute, add_parameter.
  repeat match goal with
         | |- context [match ?b with _ => _ end] => destruct b; simpl
         end; reflexivity.
Qed.

Lemma fold_row_attributes (r : Row.t) (x : Connection.t) :
  Connection.attributes (fold_row r x) =
  match Row.attribute_name r with
  | Some k =>
      if Py.truthy (Some k)
      then dict_set String.eqb k (Row.attribute_value r) (Connection.attributes x)
      else Connection.attributes x
  | None => Connection.attributes x
  end.
Proof.
  unfold fold_row, add_group, add_user, add_attribute, add_parameter.
  repeat match goal with
         | |- context [match ?b with _ => _ end] => destruct b; simpl
         end; reflexivity.
Qed.

(** C10. The aggregator reads an empty string as NULL wherever it tests a
    column for truth.  Replacing the empty strings in the columns name,
    protocol, group_name, parameter_name and attribute_name by NULL changes
    nothing in the export.  A connection whose first row has an empty name
    is called ["Unnamed Connection {id}"], one whose first row has an empty
    protocol gets ["ssh"], a group whose first row has an empty group name is
    called ["ROOT"]; a row with an empty parameter name leaves the
    parameters of its connection as they were, and likewise for an empty
    attribute name and the attributes. *)
Theorem empty_string_is_null :
  (forall enum_fields rows,
      export_to_json enum_fields (map nullify rows) = export_to_json enum_fields rows)
  /\ (forall rows g c r0 rs,
         rows_of_pair g c rows = r0 :: rs ->
         exists x,
           connection_at g c (aggregate rows) = Some x
           /\ (Row.name r0 = Some "" ->
               Connection.name x = ("Unnamed Connection " ++ Py.str_of_int c)%string)
           /\ (Row.protocol r0 = Some "" -> Connection.protocol x = "ssh"))
  /\ (forall rows g r0 rs,
         rows_of_group g rows = r0 :: rs ->
         Row.group_name r0 = Some "" ->
         option_map Group.group_name (dict_get group_id_eqb g (aggregate rows))
         = Some "ROOT")
  /\ (forall groups r,
         exists x,
           connection_at (Row.connection_group_id r) (Row.connection_id r) (step groups r)
           = Some x
           /\ (Row.parameter_name r = Some "" ->
               Connection.parameters x = Connection.parameters (target r groups))
           /\ (Row.attribute_name r = Some "" ->
               Connection.attributes x = Connection.attributes (target r groups))).
Proof.
  split; [|split; [|split]].
  - intros enum_fields rows. unfold export_to_json.
    destruct rows as [|r rows]; [reflexivity|].
    change (map nullify (r :: rows)) with (nullify r :: map nullify rows).
    change (nullify r :: map nullify rows) with (map nullify (r :: rows)).
    now rewrite aggregate_nullify.
  - intros rows g c r0 rs H.
    destruct (first_row_decides g c rows r0 rs H) as (x & Hat & _ & Hname & Hproto).
    exists x. split; [assumption|]. split.
    + intro Hn. now rewrite Hname, Hn.
    + intro Hp. now rewrite Hproto, Hp.
  - intros rows g r0 rs H Hn.
    rewrite aggregate_group_name. unfold first_seen_group_name.
    now rewrite H, Hn.
  - intros groups r. exists (fold_row r (target r groups)).
    split; [now rewrite connection_at_step, is_pair_self|].
    rewrite fold_row_parameters, fold_row_attributes. split.
    + now intros ->.
    + now intros ->.
Qed.

Lemma empty_string_is_null_witness :
  exists x,
    connection_at None 42 (aggregate [row_blank]) = Some x
    /\ Connection.name x = "Unnamed Connection 42"
    /\ Connection.protocol x = "ssh"
    /\ Connection.parameters x = []
    /\ Connection.attributes x = []
    /\ option_map Group.group_name (dict_get group_id_eqb None (aggregate [row_blank]))
       = Some "ROOT".
Proof.
  destruct empty_string_is_null as (_ & Hconn & Hgroup & Hfacet).
  destruct (Hfacet [] row_blank) as (x & Hat & Hp & Ha).
  destruct (Hconn [row_blank] None 42%Z row_blank [] eq_refl)
    as (x' & Hat' & Hname & Hproto).
  assert (Hx : x' = x).
  { change (aggregate [row_blank]) with (step [] row_blank) in Hat'.
    change (Row.connection_group_id row_blank) with (@None Z) in Hat.
    change (Row.connection_id row_blank) with 42%Z in Hat.
    congruence. }
  subst x'. exists x.
  exact (conj Hat'
          (conj (Hname eq_refl)
             (conj (Hproto eq_refl)
                (conj (Hp eq_refl)
                   (conj (Ha eq_refl)
                      (Hgroup [row_blank] None row_blank [] eq_refl eq_refl)))))).
Defined.

(** ** The serialised document *)

Lemma connection_objects_document (doc : Document.t) :
  connection_objects (json_of_document doc) =
  map json_of_connection (flat_map Group.connections (Document.connections doc)).
Proof.
  unfold connection_objects. simpl.
  induction (Document.connections doc) as [|grp out IH]; simpl; [reflexivity|].
  now rewrite IH, map_app.
Qed.

Lemma connection_layout_holds (x : Connection.t) :
  connection_layout (json_of_connection x) = true.
Proof. reflexivity. Qed.

Lemma is_string_mapping_nullable (d : dict string (option string)) :
  is_string_mapping (json_of_mapping d) = forallb (fun kv => is_some (snd kv)) d.
Proof.
  unfold json_of_mapping. simpl.
  induction d as [|[k [v|]] d IH]; simpl; [reflexivity | exact IH | reflexivity].
Qed.

Lemma is_string_array_nullable (l : list (option string)) :
  is_string_array (JArray (map json_of_nullable l)) = forallb is_some l.
Proof.
  simpl. induction l as [|[v|] l IH]; simpl; [reflexivity | exact IH | reflexivity].
Qed.

(** A serialised connection object meets the schema exactly when the
    object holds no NULL. *)
Lemma connection_schema_strings_only (x : Connection.t) :
  connection_schema (json_of_connection x) = strings_only x.
Proof.
  unfold connection_schema, strings_only, member_is, json_of_connection, member.
  cbn [dict_get String.eqb Ascii.eqb Bool.eqb fst snd is_int is_string andb].
  now rewrite !is_string_mapping_nullable, !is_string_array_nullable.
Qed.

Lemma forallb_dict_set (q : option string -> bool) (k : string) (v : option string)
      (d : dict string (option string)) :
  forallb (fun kv => q (snd kv)) d = true ->
  q v = true ->
  forallb (fun kv => q (snd kv)) (dict_set String.eqb k v d) = true.
Proof.
  intros Hd Hv. induction d as [|[k0 v0] d IH]; simpl in *.
  - now rewrite Hv.
  - apply andb_true_iff in Hd as [H0 Hd].
    destruct (k =? k0)%string; simpl.
    + now rewrite Hv, Hd.
    + now rewrite H0, IH.
Qed.

Lemma forallb_snoc {A : Type} (q : A -> bool) (l : list A) (a : A) :
  forallb q l = true -> q a = true -> forallb q (l ++ [a]) = true.
Proof.
  intros Hl Ha. rewrite forallb_app, Hl. simpl. now rewrite Ha.
Qed.

Lemma fold_row_strings_only (r : Row.t) (x : Connection.t) :
  well_formed r = true -> strings_only x = true -> strings_only (fold_row r x) = true.
Proof.
  unfold well_formed, strings_only.
  rewrite !andb_true_iff. intros [[Wp Wa] We] [[[Hp Ha] Hu] Hg].
  rewrite fold_row_parameters, fold_row_attributes, fold_row_users, fold_row_groups.
  repeat split.
  - destruct (Row.parameter_name r) as [k|]; [|assumption].
    destruct (Py.truthy (Some k)); [|assumption].
    apply forallb_dict_set; [assumption | exact Wp].
  - destruct (Row.attribute_name r) as [k|]; [|assumption].
    destruct (Py.truthy (Some k)); [|assumption].
    apply forallb_dict_set; [assumption | exact Wa].
  - destruct (is_user r) eqn:U; cbn [andb]; [|assumption].
    destruct (Py.contains _ _); cbn [negb]; [assumption|].
    apply forallb_snoc; [assumption | exact We].
  - destruct (is_user_group r) eqn:U; cbn [andb]; [|assumption].
    destruct (Py.contains _ _); cbn [negb]; [assumption|].
    apply forallb_snoc; [assumption|]. now rewrite orb_true_r in We.
Qed.

(** A NULL entity name on a ['USER'] row stays in the users list of its
    connection, whatever rows follow; likewise for ['USER_GROUP'] and the
    groups list. *)
Lemma folded_null_user (rs : list Row.t) (x : Connection.t) (r : Row.t) :
  In r rs -> is_user r = true -> Row.entity_name r = None ->
  In None (Connection.users (folded rs x)).
Proof.
  intros Hin Hu Hn. induction rs as [|a rs IH] using rev_ind; [destruct Hin|].
  unfold folded. rewrite fold_left_app. simpl. fold (folded rs x).
  rewrite fold_row_users.
  apply in_app_or in Hin as [Hin | [-> | []]].
  - specialize (IH Hin). destruct (_ && _); [apply in_or_app; now left | exact IH].
  - rewrite Hu, Hn. simpl.
    destruct (Py.contains None _) eqn:E; simpl.
    + now apply contains_In.
    + apply in_or_app. right. now left.
Qed.

Lemma folded_null_group (rs : list Row.t) (x : Connection.t) (r : Row.t) :
  In r rs -> is_user_group r = true -> Row.entity_name r = None ->
  In None (Connection.groups (folded rs x)).
Proof.
  intros Hin Hu Hn. induction rs as [|a rs IH] using rev_ind; [destruct Hin|].
  unfold folded. rewrite fold_left_app. simpl. fold (folded rs x).
  rewrite fold_row_groups.
  apply in_app_or in Hin as [Hin | [-> | []]].
  - specialize (IH Hin). destruct (_ && _); [apply in_or_app; now left | exact IH].
  - rewrite Hu, Hn. simpl.
    destruct (Py.contains None _) eqn:E; simpl.
    + now apply contains_In.
    + apply in_or_app. right. now left.
Qed.

Lemma forallb_is_some_null (l : list (option string)) :
  In None l -> forallb is_some l = false.
Proof.
  induction l as [|[v|] l IH]; simpl; intro H.
  - destruct H.
  - destruct H as [H | H]; [discriminate | now apply IH].
  - reflexivity.
Qed.

Lemma forallb_In_false {A : Type} (p : A -> bool) (l : list A) (a : A) :
  In a l -> p a = false -> forallb p l = false.
Proof.
  intros Hin Hp. destruct (forallb p l) eqn:E; [|reflexivity].
  rewrite forallb_forall in E. rewrite (E a Hin) in Hp. discriminate.
Qed.

(** The connection object of a typed row without entity name holds a
    NULL. *)
Lemma nameless_entity_not_strings_only (rows : list Row.t) (r : Row.t) :
  In r rows ->
  (is_user r || is_user_group r) = true ->
  Row.entity_name r = None ->
  exists grp x,
    In grp (dict_values (aggregate rows))
    /\ In x (Group.connections grp)
    /\ strings_only x = false.
Proof.
  intros Hin Htype Hn.
  set (g := Row.connection_group_id r). set (c := Row.connection_id r).
  assert (Hr : In r (rows_of_pair g c rows)).
  { unfold rows_of_pair. apply filter_In. split; [assumption | apply is_pair_self]. }
  pose proof (aggregate_connection_at g c rows) as Hat.
  destruct (rows_of_pair g c rows) as [|r0 rs] eqn:Hpair; [destruct Hr|].
  destruct (connection_at_located g c (aggregate rows) _ Hat) as (grp & _ & Hgrp & Hx).
  exists grp, (folded (r0 :: rs) (new_connection r0)).
  split; [assumption|]. split; [assumption|].
  unfold strings_only. apply orb_true_iff in Htype as [Hu | Hg].
  - rewrite (forallb_is_some_null _ (folded_null_user _ _ r Hr Hu Hn)).
    now rewrite andb_false_r.
  - rewrite (forallb_is_some_null _ (folded_null_group _ _ r Hr Hg Hn)).
    now rewrite andb_false_r.
Qed.

(** C9, as stated, fails: a ['USER'] row whose entity name is NULL
    exports the NULL in the users list of its connection. *)
Lemma all_leaves_strings_fails : ~ all_leaves_strings [row_nameless_user].
Proof.
  intro H.
  specialize (H [] _ eq_refl). vm_compute in H. discriminate.
Qed.

(** The row type also admits a parameter name that comes with a NULL
    value; exported alone, such a row gives a null under that name. *)
Lemma valueless_parameter_exported :
  ~ all_leaves_strings [row_valueless_parameter].
Proof.
  intro H.
  specialize (H [] _ eq_refl). vm_compute in H. discriminate.
Qed.

(** C9, amended.  Every connection object of the serialised document
    carries the seven keys connection_id, name, protocol, parameters,
    attributes, users and groups, whatever the rows are: connection_id is
    an integer, name and protocol are strings, parameters and attributes
    are objects (empty when there is no data), users and groups are arrays
    (likewise).  The values inside those four containers are copied from
    the rows unchecked; they are all strings provided every row brings a
    value with each parameter or attribute name and an entity name with
    each USER or USER_GROUP entity type.  They are not all strings when
    some USER or USER_GROUP row has a NULL entity name. *)
Theorem exported_connection_schema (enum_fields : list EnumField.t) (rows : list Row.t)
        (doc : Document.t) :
  export_to_json enum_fields rows = Exported doc ->
  connection_objects (json_of_document doc)
  = map json_of_connection (flat_map Group.connections (Document.connections doc))
  /\ forallb connection_layout (connection_objects (json_of_document doc)) = true
  /\ (forallb well_formed rows = true ->
      forallb connection_schema (connection_objects (json_of_document doc)) = true)
  /\ (forall r,
         In r rows ->
         (is_user r || is_user_group r) = true ->
         Row.entity_name r = None ->
         forallb connection_schema (connection_objects (json_of_document doc)) = false).
Proof.
  intro Hexp. rewrite connection_objects_document.
  split; [reflexivity|]. split; [|split].
  - apply forallb_forall. intros j Hj.
    apply in_map_iff in Hj as (x & <- & _). apply connection_layout_holds.
  - intro Hwf. apply forallb_forall. intros j Hj.
    apply in_map_iff in Hj as (x & <- & Hx).
    apply in_flat_map in Hx as (grp & Hgrp & Hx).
    rewrite connection_schema_strings_only.
    apply (exported_every_connection (fun y => strings_only y = true)
             enum_fields rows doc grp x); try assumption.
    apply aggregate_every_connection.
    + intros r _. reflexivity.
    + intros r y Hr. apply fold_row_strings_only.
      now apply (proj1 (forallb_forall well_formed rows) Hwf).
  - intros r Hin Htype Hn.
    destruct (nameless_entity_not_strings_only rows r Hin Htype Hn)
      as (grp & x & Hgrp & Hx & Hnull).
    apply exported_connections in Hexp as [-> _].
    apply (forallb_In_false _ _ (json_of_connection x)).
    + apply in_map, in_flat_map. now exists grp.
    + now rewrite connection_schema_strings_only.
Qed.

Lemma exported_connection_schema_witness :
  forallb connection_layout (connection_objects (json_of_document scenario_document)) = true
  /\ forallb connection_schema (connection_objects (json_of_document scenario_document))
     = true.
Proof.
  assert (H : export_to_json [] [row_alice; row_admins] = Exported scenario_document)
    by reflexivity.
  destruct (exported_connection_schema [] [row_alice; row_admins] scenario_document H)
    as (_ & Hlayout & Hschema & _).
  exact (conj Hlayout (Hschema eq_refl)).
Defined.

(** ** Enum declarations *)

Lemma append_assoc (s t u : string) : ((s ++ t) ++ u = s ++ (t ++ u))%string.
Proof. induction s as [|c s IH]; simpl; [reflexivity | now rewrite IH]. Qed.

Lemma append_nil_r (s : string) : (s ++ "")%string = s.
Proof. induction s as [|c s IH]; simpl; [reflexivity | now rewrite IH]. Qed.

Lemma replace_app (old : ascii) (new s t : string) :
  Py.replace old new (s ++ t)%string
  = (Py.replace old new s ++ Py.replace old new t)%string.
Proof.
  induction s as [|c s IH]; simpl; [reflexivity|].
  destruct (c =? old)%char; rewrite IH; [now rewrite append_assoc | reflexivity].
Qed.

Lemma replace_absent (old : ascii) (new s : string) :
  Py.char_in old s = false -> Py.replace old new s = s.
Proof.
  induction s as [|c s IH]; simpl; [reflexivity|].
  intro H. apply orb_false_iff in H as [H1 H2].
  rewrite Ascii.eqb_sym, H1. now rewrite IH.
Qed.

Lemma split_absent (sep : ascii) (s : string) :
  Py.char_in sep s = false -> Py.split sep s = [s].
Proof.
  induction s as [|c s IH]; simpl; [reflexivity|].
  intro H. apply orb_false_iff in H as [H1 H2].
  rewrite Ascii.eqb_sym, H1. now rewrite IH.
Qed.

Lemma split_app (sep : ascii) (s t : string) :
  Py.char_in sep s = false ->
  Py.split sep (s ++ String sep t)%string = s :: Py.split sep t.
Proof.
  induction s as [|c s IH]; simpl.
  - intros _. now rewrite Ascii.eqb_refl.
  - intro H. apply orb_false_iff in H as [H1 H2].
    rewrite Ascii.eqb_sym, H1. now rewrite IH.
Qed.

(** Characters before a kept suffix are kept too. *)
Lemma rstrip_app (chars s t : string) :
  Py.rstrip chars t <> EmptyString ->
  Py.rstrip chars (s ++ t)%string = (s ++ Py.rstrip chars t)%string.
Proof.
  intro H. induction s as [|c s IH]; simpl; [reflexivity|].
  rewrite IH. destruct (s ++ Py.rstrip chars t)%string eqn:E; [|reflexivity].
  destruct s; simpl in E; [contradiction | discriminate].
Qed.

(** A non-empty list of quoted literals, joined, begins and ends with a
    quote. *)
Lemma concat_quoted_shape (literals : list string) :
  literals <> [] ->
  exists body, String.concat "," (map quoted literals) = String "'" (body ++ "'")%string.
Proof.
  induction literals as [|l ls IH]; [tauto|]. intros _.
  destruct ls as [|l' ls].
  - exists l. reflexivity.
  - destruct IH as (body & Hbody); [discriminate|].
    change (String.concat "," (map quoted (l :: l' :: ls)))
      with (quoted l ++ "," ++ String.concat "," (map quoted (l' :: ls)))%string.
    rewrite Hbody. exists (l ++ "','" ++ body)%string.
    unfold quoted. simpl. f_equal. now rewrite !append_assoc.
Qed.

Lemma strip_enum_declaration (literals : list string) :
  literals <> [] ->
  Py.strip "enum()" (enum_declaration literals)
  = String.concat "," (map quoted literals).
Proof.
  intro H. destruct (concat_quoted_shape literals H) as (body & Hbody).
  unfold enum_declaration, Py.strip. rewrite Hbody.
  change (Py.lstrip "enum()" ("enum(" ++ String "'" (body ++ "'") ++ ")")%string)
    with (String "'" (body ++ "'") ++ ")")%string.
  change (String "'" (body ++ "'") ++ ")")%string
    with (String "'" ((body ++ "'") ++ ")"))%string.
  rewrite append_assoc.
  change (String "'" (body ++ "'" ++ ")"))%string
    with (String "'" body ++ "')")%string.
  rewrite rstrip_app; [reflexivity | discriminate].
Qed.

Lemma plain_true (literal : string) :
  plain literal = true ->
  Py.char_in "'" literal = false /\ Py.char_in "," literal = false.
Proof.
  unfold plain. rewrite andb_true_iff, !negb_true_iff. tauto.
Qed.

Lemma replace_concat_quoted (literals : list string) :
  forallb plain literals = true ->
  Py.replace "'" "" (String.concat "," (map quoted literals))
  = String.concat "," literals.
Proof.
  induction literals as [|l ls IH]; [reflexivity|].
  intro H. simpl in H. apply andb_true_iff in H as [Hl Hls].
  apply plain_true in Hl as [Hq _].
  assert (Hquoted : Py.replace "'" "" (quoted l) = l).
  { unfold quoted. simpl. rewrite replace_app, replace_absent by assumption.
    simpl. apply append_nil_r. }
  destruct ls as [|l' ls]; [exact Hquoted|].
  change (String.concat "," (map quoted (l :: l' :: ls)))
    with (quoted l ++ "," ++ String.concat "," (map quoted (l' :: ls)))%string.
  change (String.concat "," (l :: l' :: ls))
    with (l ++ "," ++ String.concat "," (l' :: ls))%string.
  rewrite replace_app, Hquoted. f_equal.
  rewrite replace_app. f_equal. now apply IH.
Qed.

Lemma split_concat (literals : list string) :
  literals <> [] ->
  forallb plain literals = true ->
  Py.split "," (String.concat "," literals) = literals.
Proof.
  induction literals as [|l ls IH]; [tauto|]. intros _ H.
  simpl in H. apply andb_true_iff in H as [Hl Hls].
  apply plain_true in Hl as [_ Hc].
  destruct ls as [|l' ls].
  - now apply split_absent.
  - change (String.concat "," (l :: l' :: ls))
      with (l ++ String "," (String.concat "," (l' :: ls)))%string.
    rewrite split_app by assumption. f_equal. apply IH; [discriminate | assumption].
Qed.

Lemma fetch_dropdown_options_snoc (enum_fields : list EnumField.t) (field : EnumField.t) :
  fetch_dropdown_options (enum_fields ++ [field])
  = dict_set String.eqb (EnumField.COLUMN_NAME field)
      (parse_enum (EnumField.COLUMN_TYPE field)) (fetch_dropdown_options enum_fields).
Proof. unfold fetch_dropdown_options. now rewrite fold_left_app. Qed.

(** C8. Enum parsing.  The declaration [enum('ssh','vnc','rdp')] is
    parsed to [["ssh"; "vnc"; "rdp"]].  In general the declaration of any
    non-empty list of literals free of quotes and commas is parsed back to
    that list: wrapper and quotes are gone, the order is the declaration
    order.  The list is stored under the column name. *)
Theorem enum_parsing :
  parse_enum "enum('ssh','vnc','rdp')" = ["ssh"; "vnc"; "rdp"]
  /\ (forall literals,
         literals <> [] ->
         forallb plain literals = true ->
         parse_enum (enum_declaration literals) = literals)
  /\ (forall enum_fields column_name column_type,
         dict_get String.eqb column_name
           (fetch_dropdown_options
              (enum_fields ++ [EnumField.mk column_name column_type]))
         = Some (parse_enum column_type)).
Proof.
  split; [reflexivity|]. split.
  - intros literals Hne Hplain. unfold parse_enum.
    rewrite strip_enum_declaration by assumption.
    rewrite replace_concat_quoted by assumption.
    now apply split_concat.
  - intros enum_fields column_name column_type.
    rewrite fetch_dropdown_options_snoc. simpl.
    now rewrite (dict_get_set String.eqb_eq), String.eqb_refl.
Qed.

Lemma enum_parsing_witness :
  parse_enum "enum('USER','USER_GROUP')" = ["USER"; "USER_GROUP"].
Proof.
  destruct enum_parsing as (_ & Hgeneral & _).
  refine (Hgeneral ["USER"; "USER_GROUP"] _ eq_refl).
  discriminate.
Defined.

(** ** The end-to-end scenario *)

(** Two rows of connection 1 in the root group: one group ["ROOT"], one
    connection, both parameters, one user, one user group. *)
Example end_to_end_scenario :
  export_to_json [] [row_alice; row_admins] = Exported scenario_document.
Proof. reflexivity. Qed.

(** * Further properties of the code *)

(** ** Dictionaries built in a loop *)

Section DictFoldFacts.

Variables X K V : Type.
Variable eqb : K -> K -> bool.
Hypothesis eqb_eq : forall x y, eqb x y = true <-> x = y.
Variable key : X -> option K.
Variable val : X -> V.

Lemma dict_fold_snoc (xs : list X) (x : X) (d : dict K V) :
  dict_fold eqb key val (xs ++ [x]) d =
  match key x with
  | Some k => dict_set eqb k (val x) (dict_fold eqb key val xs d)
  | None => dict_fold eqb key val xs d
  end.
Proof. unfold dict_fold. now rewrite fold_left_app. Qed.

(** Last write wins. *)
Lemma dict_fold_get (k : K) (xs : list X) (d : dict K V) :
  dict_get eqb k (dict_fold eqb key val xs d) =
  match last_value eqb key val k xs with
  | Some v => Some v
  | None => dict_get eqb k d
  end.
Proof.
  unfold last_value.
  induction xs as [|x xs IH] using rev_ind; [reflexivity|].
  rewrite dict_fold_snoc, rev_app_distr. simpl.
  destruct (key x) as [k'|]; simpl.
  - rewrite (dict_get_set eqb_eq).
    destruct (eqb k' k) eqn:E.
    + apply eqb_eq in E. subst k'. now rewrite (eqb_reflexive eqb_eq).
    + destruct (eqb k k') eqn:E'; [|exact IH].
      apply eqb_eq in E'. subst k'. now rewrite (eqb_reflexive eqb_eq) in E.
  - exact IH.
Qed.

(** Keys stand in the order in which they were first stored. *)
Lemma dict_fold_keys (xs : list X) :
  dict_keys (dict_fold eqb key val xs []) = first_seen eqb (keys_of key xs).
Proof.
  unfold keys_of.
  induction xs as [|x xs IH] using rev_ind; [reflexivity|].
  rewrite dict_fold_snoc, flat_map_app. simpl.
  destruct (key x) as [k|]; simpl.
  - rewrite dict_set_keys, dict_mem_keys, IH.
    rewrite (first_seen_snoc eqb_eq).
    now rewrite (existsb_first_seen eqb_eq).
  - now rewrite app_nil_r.
Qed.

End DictFoldFacts.

Arguments dict_fold_get {X K V eqb} eqb_eq key val k xs d.
Arguments dict_fold_keys {X K V eqb} eqb_eq key val xs.

(** ** Parameters and attributes of a connection *)

Lemma folded_cons (r : Row.t) (rs : list Row.t) (x : Connection.t) :
  folded (r :: rs) x = folded rs (fold_row r x).
Proof. reflexivity. Qed.

Lemma folded_snoc (rs : list Row.t) (r : Row.t) (x : Connection.t) :
  folded (rs ++ [r]) x = fold_row r (folded rs x).
Proof. unfold folded. now rewrite fold_left_app. Qed.

Lemma folded_parameters (rs : list Row.t) (x : Connection.t) :
  Connection.parameters (folded rs x) =
  dict_fold String.eqb parameter_key Row.parameter_value rs (Connection.parameters x).
Proof.
  induction rs as [|r rs IH] using rev_ind; [reflexivity|].
  rewrite folded_snoc, dict_fold_snoc, fold_row_parameters, IH.
  unfold parameter_key, blank_to_null.
  destruct (Row.parameter_name r) as [k|]; [|reflexivity].
  now destruct (Py.truthy (Some k)).
Qed.

Lemma folded_attributes (rs : list Row.t) (x : Connection.t) :
  Connection.attributes (folded rs x) =
  dict_fold String.eqb attribute_key Row.attribute_value rs (Connection.attributes x).
Proof.
  induction rs as [|r rs IH] using rev_ind; [reflexivity|].
  rewrite folded_snoc, dict_fold_snoc, fold_row_attributes, IH.
  unfold attribute_key, blank_to_null.
  destruct (Row.attribute_name r) as [k|]; [|reflexivity].
  now destruct (Py.truthy (Some k)).
Qed.

(** The object at a pair, written out. *)
Lemma connection_at_folded (g : option Z) (c : Z) (rows : list Row.t) (x : Connection.t) :
  connection_at g c (aggregate rows) = Some x ->
  exists r0 rs,
    rows_of_pair g c rows = r0 :: rs /\ x = folded (r0 :: rs) (new_connection r0).
Proof.
  rewrite aggregate_connection_at.
  destruct (rows_of_pair g c rows) as [|r0 rs]; [discriminate|].
  intro H. injection H as <-. now exists r0, rs.
Qed.

Lemma match_option_id {A : Type} (o : option A) :
  match o with Some v => Some v | None => None end = o.
Proof. now destruct o. Qed.

(** X1. Last write wins: in the connection object of a pair, the value
    stored under a parameter name is the parameter value of the last row of
    the pair that carries this name (NULL and empty names store nothing), and
    the name is absent when no row of the pair carries it.  Likewise for
    attributes. *)
Theorem facets_last_write_wins (rows : list Row.t) (g : option Z) (c : Z)
        (x : Connection.t) (k : string) :
  connection_at g c (aggregate rows) = Some x ->
  dict_get String.eqb k (Connection.parameters x)
  = last_value String.eqb parameter_key Row.parameter_value k (rows_of_pair g c rows)
  /\ dict_get String.eqb k (Connection.attributes x)
     = last_value String.eqb attribute_key Row.attribute_value k (rows_of_pair g c rows).
Proof.
  intro H. apply connection_at_folded in H as (r0 & rs & -> & ->).
  rewrite folded_parameters, folded_attributes.
  rewrite !(dict_fold_get String.eqb_eq). simpl.
  now rewrite !match_option_id.
Qed.

Lemma facets_last_write_wins_witness :
  dict_get String.eqb "hostname" (Connection.parameters host_connection)
  = Some (Some "10.0.0.2")
  /\ dict_get String.eqb "" (Connection.attributes host_connection) = None.
Proof.
  assert (H : connection_at (Some 3%Z) 9 (aggregate host_rows) = Some host_connection)
    by reflexivity.
  exact (conj (proj1 (facets_last_write_wins host_rows (Some 3%Z) 9 host_connection
                        "hostname" H))
              (proj2 (facets_last_write_wins host_rows (Some 3%Z) 9 host_connection
                        "" H))).
Defined.

(** X2. The parameter names of a connection object stand in the order in
    which the rows of its pair first carry them, each once; likewise the
    attribute names. *)
Theorem facet_keys_first_seen (rows : list Row.t) (g : option Z) (c : Z)
        (x : Connection.t) :
  connection_at g c (aggregate rows) = Some x ->
  dict_keys (Connection.parameters x)
  = first_seen String.eqb (keys_of parameter_key (rows_of_pair g c rows))
  /\ dict_keys (Connection.attributes x)
     = first_seen String.eqb (keys_of attribute_key (rows_of_pair g c rows))
  /\ NoDup (dict_keys (Connection.parameters x))
  /\ NoDup (dict_keys (Connection.attributes x)).
Proof.
  intro H. apply connection_at_folded in H as (r0 & rs & -> & ->).
  rewrite folded_parameters, folded_attributes. simpl Connection.parameters.
  simpl Connection.attributes.
  rewrite !(dict_fold_keys String.eqb_eq).
  repeat split; apply (first_seen_NoDup String.eqb_eq).
Qed.

Lemma facet_keys_first_seen_witness :
  dict_keys (Connection.parameters host_connection) = ["hostname"]
  /\ dict_keys (Connection.attributes host_connection) = ["max-connections"].
Proof.
  assert (H : connection_at (Some 3%Z) 9 (aggregate host_rows) = Some host_connection)
    by reflexivity.
  destruct (facet_keys_first_seen host_rows (Some 3%Z) 9 host_connection H)
    as (Hp & Ha & _ & _).
  exact (conj Hp Ha).
Defined.

(** ** Users and groups of a connection, in full *)

Lemma folded_users (rs : list Row.t) (x : Connection.t) :
  Connection.users x = [] ->
  Connection.users (folded rs x)
  = first_seen (Py.opt_eqb String.eqb) (map Row.entity_name (filter is_user rs)).
Proof.
  intro Hx. induction rs as [|r rs IH] using rev_ind; [exact Hx|].
  rewrite folded_snoc, fold_row_users, filter_app, map_app, IH. simpl.
  destruct (is_user r); simpl.
  - rewrite (first_seen_snoc nullable_eqb_eq). unfold Py.contains.
    rewrite (existsb_first_seen nullable_eqb_eq).
    now destruct (existsb _ _).
  - now rewrite app_nil_r.
Qed.

Lemma folded_groups (rs : list Row.t) (x : Connection.t) :
  Connection.groups x = [] ->
  Connection.groups (folded rs x)
  = first_seen (Py.opt_eqb String.eqb) (map Row.entity_name (filter is_user_group rs)).
Proof.
  intro Hx. induction rs as [|r rs IH] using rev_ind; [exact Hx|].
  rewrite folded_snoc, fold_row_groups, filter_app, map_app, IH. simpl.
  destruct (is_user_group r); simpl.
  - rewrite (first_seen_snoc nullable_eqb_eq). unfold Py.contains.
    rewrite (existsb_first_seen nullable_eqb_eq).
    now destruct (existsb _ _).
  - now rewrite app_nil_r.
Qed.

(** X3. The users list of a connection object is the sequence of the
    distinct entity names of the ['USER'] rows of its pair, in the order of
    their first occurrence; the groups list is the same for the
    ['USER_GROUP'] rows.  Rows of any other entity type contribute to
    neither. *)
Theorem users_groups_first_seen (rows : list Row.t) (g : option Z) (c : Z)
        (x : Connection.t) :
  connection_at g c (aggregate rows) = Some x ->
  Connection.users x
  = first_seen (Py.opt_eqb String.eqb)
      (map Row.entity_name (filter is_user (rows_of_pair g c rows)))
  /\ Connection.groups x
     = first_seen (Py.opt_eqb String.eqb)
         (map Row.entity_name (filter is_user_group (rows_of_pair g c rows))).
Proof.
  intro H. apply connection_at_folded in H as (r0 & rs & -> & ->).
  split; [now apply folded_users | now apply folded_groups].
Qed.

Lemma users_groups_first_seen_witness :
  Connection.users scenario_connection = [Some "alice"]
  /\ Connection.groups scenario_connection = [Some "admins"].
Proof.
  assert (H : connection_at None 1 (aggregate [row_alice; row_admins; row_alice])
              = Some scenario_connection) by reflexivity.
  exact (users_groups_first_seen [row_alice; row_admins; row_alice] None 1
           scenario_connection H).
Defined.

(** ** The first row of a connection and of a group *)

(** X4. First row wins: the name and protocol of a connection object are
    those of the first row of its pair (or the fallback when that row has
    none), and the name of a group object is that of the first row of the
    group; names and protocols on later rows are ignored. *)
Theorem first_row_wins (enum_fields : list EnumField.t) (rows : list Row.t)
        (doc : Document.t) (g : option Z) (grp : Group.t) (x : Connection.t) :
  export_to_json enum_fields rows = Exported doc ->
  In (g, grp) (aggregate rows) ->
  In x (Group.connections grp) ->
  In grp (Document.connections doc)
  /\ exists r0 rs r1 rs1,
       rows_of_group g rows = r0 :: rs
       /\ rows_of_pair g (Connection.connection_id x) rows = r1 :: rs1
       /\ Group.group_name grp = Py.or_else (Row.group_name r0) "ROOT"
       /\ Connection.name x
          = Py.or_else (Row.name r1)
              ("Unnamed Connection " ++ Py.str_of_int (Connection.connection_id x))%string
       /\ Connection.protocol x = Py.or_else (Row.protocol r1) "ssh".
Proof.
  intros Hexp Hgrp Hx.
  apply exported_connections in Hexp as [-> _]. split.
  { unfold dict_values. change grp with (snd (g, grp)). now apply in_map. }
  pose proof (aggregate_group_name g rows) as Hname.
  rewrite (aggregate_lookup g grp rows Hgrp) in Hname.
  unfold first_seen_group_name in Hname. simpl in Hname.
  destruct (rows_of_group g rows) as [|r0 rs] eqn:Hrows; [discriminate|].
  injection Hname as Hname.
  assert (Hat : connection_at g (Connection.connection_id x) (aggregate rows) <> None).
  { unfold connection_at. rewrite (aggregate_entry g grp rows Hgrp).
    intro Hnone. apply (find_none _ _ Hnone) in Hx.
    unfold has_id in Hx. now rewrite Z.eqb_refl in Hx. }
  destruct (rows_of_pair g (Connection.connection_id x) rows) as [|r1 rs1] eqn:Hpair.
  { rewrite aggregate_connection_at, Hpair in Hat. now elim Hat. }
  destruct (first_row_decides g _ rows r1 rs1 Hpair) as (y & Hy & _ & Hn & Hp).
  assert (y = x) as ->.
  { unfold connection_at in Hy. rewrite (aggregate_entry g grp rows Hgrp) in Hy.
    apply find_some in Hy as [Hy Hid]. apply has_id_true in Hid.
    pose proof (aggregate_ids g rows) as Hids.
    rewrite (aggregate_entry g grp rows Hgrp) in Hids.
    assert (ND : NoDup (map Connection.connection_id (Group.connections grp))).
    { rewrite Hids. apply (first_seen_NoDup Z.eqb_eq). }
    clear - Hy Hx Hid ND.
    induction (Group.connections grp) as [|a l IH]; [destruct Hx|].
    simpl in ND. inversion ND as [|? ? Hnotin ND']; subst.
    destruct Hy as [<- | Hy], Hx as [<- | Hx]; try reflexivity.
    - exfalso. apply Hnotin. rewrite Hid. now apply in_map.
    - exfalso. apply Hnotin. rewrite <- Hid. now apply in_map.
    - now apply IH. }
  exists r0, rs, r1, rs1. auto.
Qed.

Lemma first_row_wins_witness :
  Group.group_name host_group = "Lab"
  /\ Connection.name host_connection = "gateway"
  /\ Connection.protocol host_connection = "rdp".
Proof.
  assert (H : export_to_json [] host_rows = Exported host_document) by reflexivity.
  destruct (first_row_wins [] host_rows host_document (Some 3%Z) host_group
              host_connection H (or_introl eq_refl) (or_introl eq_refl))
    as (_ & r0 & rs & r1 & rs1 & Hg & Hp & Hname & Hcname & Hproto).
  injection Hg as <- <-. injection Hp as <- <-.
  exact (conj Hname (conj Hcname Hproto)).
Defined.

(** ** Rows of other groups and connections *)

Lemma filter_idempotent {A : Type} (p : A -> bool) (l : list A) :
  filter p (filter p l) = filter p l.
Proof.
  induction l as [|a l IH]; simpl; [reflexivity|].
  destruct (p a) eqn:E; simpl; [now rewrite E, IH | exact IH].
Qed.

(** The connection list of a group, as a loop over the rows of the group. *)
Lemma conns_of_aggregate (g : option Z) (rows : list Row.t) :
  conns_of g (aggregate rows)
  = fold_left (fun conns r => locate_and_fold r conns) (rows_of_group g rows) [].
Proof.
  induction rows as [|r rows IH] using rev_ind; [reflexivity|].
  rewrite aggregate_snoc, conns_of_step, rows_of_group_snoc.
  destruct (group_id_eqb g _) eqn:E; [|exact IH].
  apply group_id_eqb_eq in E. subst g.
  now rewrite fold_left_app, <- IH.
Qed.

(** X5. Locality: the connection list of a group is the one the rows of
    that group alone would give, and a connection object is the one the
    rows of its pair alone would give.  Rows of other groups or connections,
    wherever they are interleaved, change neither. *)
Theorem rows_of_others_are_ignored (rows : list Row.t) (g : option Z) (c : Z) :
  conns_of g (aggregate rows) = conns_of g (aggregate (rows_of_group g rows))
  /\ connection_at g c (aggregate rows)
     = connection_at g c (aggregate (rows_of_pair g c rows)).
Proof.
  split.
  - rewrite !conns_of_aggregate. unfold rows_of_group. now rewrite filter_idempotent.
  - rewrite !aggregate_connection_at. unfold rows_of_pair. now rewrite filter_idempotent.
Qed.

(** ** Repeated rows *)

Lemma connection_ext (x y : Connection.t) :
  Connection.connection_id x = Connection.connection_id y ->
  Connection.name x = Connection.name y ->
  Connection.protocol x = Connection.protocol y ->
  Connection.parameters x = Connection.parameters y ->
  Connection.attributes x = Connection.attributes y ->
  Connection.users x = Connection.users y ->
  Connection.groups x = Connection.groups y ->
  x = y.
Proof.
  destruct x, y. simpl. intros. now subst.
Qed.

Lemma dict_set_idempotent (k : string) (v : option string)
      (d : dict string (option string)) :
  dict_set String.eqb k v (dict_set String.eqb k v d) = dict_set String.eqb k v d.
Proof.
  induction d as [|[k0 v0] d IH]; simpl.
  - now rewrite String.eqb_refl.
  - destruct (k =? k0)%string eqn:E; simpl; rewrite E; [reflexivity | now rewrite IH].
Qed.

Lemma contains_snoc (n : option string) (l : list (option string)) :
  Py.contains n (l ++ [n]) = true.
Proof.
  apply contains_In, in_or_app. right. now left.
Qed.

(** Folding the same row in twice is folding it in once. *)
Lemma fold_row_idempotent (r : Row.t) (x : Connection.t) :
  fold_row r (fold_row r x) = fold_row r x.
Proof.
  apply connection_ext.
  - now rewrite !fold_row_id.
  - now rewrite !fold_row_name.
  - now rewrite !fold_row_protocol.
  - rewrite !fold_row_parameters.
    destruct (Row.parameter_name r) as [k|]; [|reflexivity].
    destruct (Py.truthy (Some k)); [apply dict_set_idempotent | reflexivity].
  - rewrite !fold_row_attributes.
    destruct (Row.attribute_name r) as [k|]; [|reflexivity].
    destruct (Py.truthy (Some k)); [apply dict_set_idempotent | reflexivity].
  - rewrite !fold_row_users.
    destruct (is_user r); simpl; [|reflexivity].
    destruct (Py.contains _ (Connection.users x)) eqn:E; simpl.
    + now rewrite E.
    + now rewrite contains_snoc.
  - rewrite !fold_row_groups.
    destruct (is_user_group r); simpl; [|reflexivity].
    destruct (Py.contains _ (Connection.groups x)) eqn:E; simpl.
    + now rewrite E.
    + now rewrite contains_snoc.
Qed.

Lemma update_first_idempotent {A : Type} (p : A -> bool) (f : A -> A) (l : list A) :
  (forall x, p x = true -> p (f x) = true) ->
  (forall x, f (f x) = f x) ->
  update_first p f (update_first p f l) = update_first p f l.
Proof.
  intros Hp Hf. induction l as [|a l IH]; simpl; [reflexivity|].
  destruct (p a) eqn:E; simpl.
  - now rewrite (Hp a E), Hf.
  - now rewrite E, IH.
Qed.

Lemma locate_and_fold_idempotent (r : Row.t) (conns : list Connection.t) :
  locate_and_fold r (locate_and_fold r conns) = locate_and_fold r conns.
Proof.
  unfold locate_and_fold at 1.
  rewrite find_locate_and_fold, Z.eqb_refl.
  unfold locate_and_fold. apply update_first_idempotent.
  - intros x Hx. unfold has_id in *. now rewrite fold_row_id.
  - apply fold_row_idempotent.
Qed.

Lemma dict_update_idempotent {K V : Type} (eqb : K -> K -> bool) (k : K) (f : V -> V)
      (d : dict K V) :
  (forall v, f (f v) = f v) ->
  dict_update eqb k f (dict_update eqb k f d) = dict_update eqb k f d.
Proof.
  intro Hf. induction d as [|[k0 v0] d IH]; simpl; [reflexivity|].
  destruct (eqb k k0) eqn:E; simpl; rewrite E; [now rewrite Hf | now rewrite IH].
Qed.

Lemma step_idempotent (groups : Groups) (r : Row.t) :
  step (step groups r) r = step groups r.
Proof.
  assert (Hmem : dict_mem group_id_eqb (Row.connection_group_id r) (step groups r) = true).
  { rewrite dict_mem_keys, step_keys.
    destruct (existsb _ (dict_keys groups)) eqn:E; [exact E|].
    rewrite existsb_app. simpl. now rewrite group_id_eqb_refl, orb_true_r. }
  unfold step at 1. rewrite Hmem. unfold step.
  apply dict_update_idempotent. intro grp. simpl.
  now rewrite locate_and_fold_idempotent.
Qed.

(** X6. A row that is repeated immediately changes nothing: the export of
    a result set in which some row occurs twice in a row is the export of
    the result set with that row once. *)
Theorem repeated_row_is_ignored (enum_fields : list EnumField.t)
        (pre : list Row.t) (r : Row.t) (post : list Row.t) :
  aggregate (pre ++ r :: r :: post) = aggregate (pre ++ r :: post)
  /\ export_to_json enum_fields (pre ++ r :: r :: post)
     = export_to_json enum_fields (pre ++ r :: post).
Proof.
  assert (H : aggregate (pre ++ r :: r :: post) = aggregate (pre ++ r :: post)).
  { unfold aggregate. rewrite !fold_left_app. simpl. now rewrite step_idempotent. }
  split; [exact H|].
  unfold export_to_json. rewrite H. now destruct pre.
Qed.

(** ** Groups of the document *)

Lemma first_seen_groups_In (g : option Z) (rows : list Row.t) :
  In g (first_seen_groups rows) -> rows_of_group g rows <> [].
Proof.
  unfold first_seen_groups, rows_of_group.
  rewrite (first_seen_In group_id_eqb_eq), in_map_iff.
  intros (r & <- & Hr) Hnil.
  assert (Hin : In r (filter (in_group (Row.connection_group_id r)) rows)).
  { apply filter_In. split; [assumption|]. unfold in_group. apply group_id_eqb_refl. }
  rewrite Hnil in Hin. destruct Hin.
Qed.

(** X7. Groups come from rows only: the document holds one group object
    per distinct group identifier of the result set, and no group object
    has an empty connections list. *)
Theorem no_empty_group (enum_fields : list EnumField.t) (rows : list Row.t)
        (doc : Document.t) :
  export_to_json enum_fields rows = Exported doc ->
  List.length (Document.connections doc)
  = distinct group_id_eqb (map Row.connection_group_id rows)
  /\ Document.connections doc <> []
  /\ forall grp, In grp (Document.connections doc) -> Group.connections grp <> [].
Proof.
  intro Hexp.
  assert (Hrows : rows <> []) by (destruct rows; [discriminate Hexp | discriminate]).
  apply exported_connections in Hexp as [-> _].
  assert (Hlen : List.length (dict_values (aggregate rows))
                 = distinct group_id_eqb (map Row.connection_group_id rows)).
  { unfold dict_values, distinct. rewrite length_map.
    rewrite <- (length_map fst). fold (dict_keys (aggregate rows)).
    now rewrite aggregate_keys. }
  split; [exact Hlen|]. split.
  - intro Hnil. rewrite Hnil in Hlen. simpl in Hlen.
    destruct rows as [|r rows]; [now apply Hrows|]. discriminate Hlen.
  - intros grp Hgrp Hnil.
    unfold dict_values in Hgrp. apply in_map_iff in Hgrp as ([g grp'] & <- & Hin).
    simpl in Hnil.
    assert (Hg : In g (first_seen_groups rows)).
    { unfold first_seen_groups. rewrite <- aggregate_keys. unfold dict_keys.
      change g with (fst (g, grp')). now apply in_map. }
    apply first_seen_groups_In in Hg.
    pose proof (aggregate_ids g rows) as Hids.
    rewrite (aggregate_entry g grp' rows Hin), Hnil in Hids.
    unfold first_seen_connections in Hids.
    destruct (rows_of_group g rows); [now apply Hg | discriminate Hids].
Qed.

Lemma no_empty_group_witness :
  List.length (Document.connections ordering_document) = 2%nat
  /\ Document.connections ordering_document <> [].
Proof.
  assert (H : export_to_json [] ordering_rows = Exported ordering_document)
    by reflexivity.
  destruct (no_empty_group [] ordering_rows ordering_document H) as (Hlen & Hne & _).
  exact (conj Hlen Hne).
Defined.

(** ** Names in the document *)

Lemma or_else_nonempty (x : option string) (d : string) :
  d <> EmptyString -> Py.or_else x d <> EmptyString.
Proof.
  intro Hd. destruct x as [s|]; simpl; [|assumption].
  destruct (s =? "")%string eqn:E; [assumption|].
  now apply String.eqb_neq in E.
Qed.

Lemma fold_row_keeps_names (r : Row.t) (x : Connection.t) :
  Connection.name x <> EmptyString /\ Connection.protocol x <> EmptyString ->
  Connection.name (fold_row r x) <> EmptyString
  /\ Connection.protocol (fold_row r x) <> EmptyString.
Proof. now rewrite fold_row_name, fold_row_protocol. Qed.

(** X8. No empty name reaches the document: every group object has a
    non-empty group name, and every connection object a non-empty name and
    a non-empty protocol, whatever the rows hold. *)
Theorem names_never_empty (enum_fields : list EnumField.t) (rows : list Row.t)
        (doc : Document.t) (grp : Group.t) :
  export_to_json enum_fields rows = Exported doc ->
  In grp (Document.connections doc) ->
  Group.group_name grp <> EmptyString
  /\ forall x, In x (Group.connections grp) ->
       Connection.name x <> EmptyString /\ Connection.protocol x <> EmptyString.
Proof.
  intros Hexp Hgrp. split.
  - apply exported_connections in Hexp as [Hc _]. rewrite Hc in Hgrp.
    unfold dict_values in Hgrp. apply in_map_iff in Hgrp as ([g grp'] & <- & Hin).
    simpl. pose proof (aggregate_group_name g rows) as Hname.
    rewrite (aggregate_lookup g grp' rows Hin) in Hname.
    unfold first_seen_group_name in Hname. simpl in Hname.
    destruct (rows_of_group g rows) as [|r0 rs]; [discriminate|].
    injection Hname as ->. now apply or_else_nonempty.
  - intros x Hx.
    apply (exported_every_connection
             (fun y => Connection.name y <> EmptyString
                       /\ Connection.protocol y <> EmptyString)
             enum_fields rows doc grp x); try assumption.
    apply aggregate_every_connection.
    + intros r _. simpl. split; now apply or_else_nonempty.
    + intros r y _. apply fold_row_keeps_names.
Qed.

Lemma names_never_empty_witness :
  Group.group_name scenario_group <> EmptyString
  /\ Connection.name scenario_connection <> EmptyString.
Proof.
  assert (H : export_to_json [] [row_alice; row_admins] = Exported scenario_document)
    by reflexivity.
  destruct (names_never_empty [] [row_alice; row_admins] scenario_document
              scenario_group H (or_introl eq_refl)) as (Hg & Hc).
  exact (conj Hg (proj1 (Hc scenario_connection (or_introl eq_refl)))).
Defined.

(** ** Enum declarations of any shape *)

Lemma split_nonempty (sep : ascii) (s : string) : Py.split sep s <> [].
Proof.
  destruct s as [|c rest]; simpl; [discriminate|].
  destruct (c =? sep)%char; [discriminate|].
  destruct (Py.split sep rest); discriminate.
Qed.

Lemma split_length (sep : ascii) (s : string) :
  List.length (Py.split sep s) = S (count_char sep s).
Proof.
  induction s as [|c rest IH]; simpl; [reflexivity|].
  rewrite (Ascii.eqb_sym sep c).
  destruct (c =? sep)%char; simpl; [now rewrite IH|].
  destruct (Py.split sep rest) as [|p ps] eqn:E; [now apply split_nonempty in E|].
  exact IH.
Qed.

Lemma char_in_differs (c d : ascii) (chars : string) :
  Py.char_in d chars = true -> Py.char_in c chars = false -> (c =? d)%char = false.
Proof.
  intros Hd Hc. destruct (c =? d)%char eqn:E; [|reflexivity].
  apply Ascii.eqb_eq in E. subst. congruence.
Qed.

Lemma count_lstrip (c : ascii) (chars s : string) :
  Py.char_in c chars = false ->
  count_char c (Py.lstrip chars s) = count_char c s.
Proof.
  intro Hc. induction s as [|d rest IH]; simpl; [reflexivity|].
  destruct (Py.char_in d chars) eqn:Hd; [|reflexivity].
  now rewrite (char_in_differs c d chars Hd Hc).
Qed.

Lemma count_rstrip (c : ascii) (chars s : string) :
  Py.char_in c chars = false ->
  count_char c (Py.rstrip chars s) = count_char c s.
Proof.
  intro Hc. induction s as [|d rest IH]; simpl; [reflexivity|].
  destruct (Py.rstrip chars rest) as [|e kept]; simpl in *.
  - rewrite <- IH. destruct (Py.char_in d chars) eqn:Hd; simpl.
    + now rewrite (char_in_differs c d chars Hd Hc).
    + reflexivity.
  - now rewrite IH.
Qed.

Lemma count_replace (c old : ascii) (s : string) :
  (c =? old)%char = false ->
  count_char c (Py.replace old "" s) = count_char c s.
Proof.
  intro Hc. induction s as [|d rest IH]; simpl; [reflexivity|].
  destruct (d =? old)%char eqn:E; simpl.
  - apply Ascii.eqb_eq in E. subst d. now rewrite Hc.
  - now rewrite IH.
Qed.

(** X9. Whatever the declaration, the option list is never empty and has
    one option more than the declaration has commas: a declaration without
    comma gives a single option, and a literal that contains a comma is cut
    in two. *)
Theorem enum_options_count (column_type : string) :
  List.length (parse_enum column_type) = S (count_char "," column_type)
  /\ parse_enum column_type <> [].
Proof.
  split; [|apply split_nonempty].
  unfold parse_enum, Py.strip.
  rewrite split_length, count_replace by reflexivity.
  now rewrite count_rstrip, count_lstrip by reflexivity.
Qed.

Lemma split_no_sep (sep : ascii) (s p : string) :
  In p (Py.split sep s) -> Py.char_in sep p = false.
Proof.
  revert p. induction s as [|c rest IH]; simpl; intros p Hp.
  - destruct Hp as [<- | []]. reflexivity.
  - destruct (c =? sep)%char eqn:E.
    + destruct Hp as [<- | Hp]; [reflexivity | now apply IH].
    + destruct (Py.split sep rest) as [|q qs].
      * destruct Hp as [<- | []]. simpl. now rewrite Ascii.eqb_sym, E.
      * destruct Hp as [<- | Hp].
        -- simpl. rewrite Ascii.eqb_sym, E. apply IH. now left.
        -- apply IH. now right.
Qed.

Lemma split_keeps_absent (c sep : ascii) (s p : string) :
  Py.char_in c s = false -> In p (Py.split sep s) -> Py.char_in c p = false.
Proof.
  revert p. induction s as [|d rest IH]; simpl; intros p Hc Hp.
  - destruct Hp as [<- | []]. reflexivity.
  - apply orb_false_iff in Hc as [Hd Hrest].
    destruct (d =? sep)%char.
    + destruct Hp as [<- | Hp]; [reflexivity | now apply IH].
    + destruct (Py.split sep rest) as [|q qs].
      * destruct Hp as [<- | []]. simpl. now rewrite Hd.
      * destruct Hp as [<- | Hp].
        -- simpl. rewrite Hd. apply IH; [assumption | now left].
        -- apply IH; [assumption | now right].
Qed.

Lemma replace_removes (old : ascii) (s : string) :
  Py.char_in old (Py.replace old "" s) = false.
Proof.
  induction s as [|d rest IH]; simpl; [reflexivity|].
  destruct (d =? old)%char eqn:E; simpl; [exact IH|].
  now rewrite Ascii.eqb_sym, E.
Qed.

(** X10. Whatever the declaration, no option contains a quote or a
    comma. *)
Theorem enum_options_plain (column_type : string) (option : string) :
  In option (parse_enum column_type) -> plain option = true.
Proof.
  unfold parse_enum, plain. intro H.
  rewrite (split_no_sep "," _ option H).
  now rewrite (split_keeps_absent "'" "," _ option (replace_removes "'" _) H).
Qed.

Lemma enum_options_plain_witness : plain "vnc" = true.
Proof.
  apply (enum_options_plain "enum('ssh','vnc','rdp')" "vnc").
  right. left. reflexivity.
Defined.

(** ** Dropdown options *)

Lemma keys_of_column_key (enum_fields : list EnumField.t) :
  keys_of column_key enum_fields = map EnumField.COLUMN_NAME enum_fields.
Proof.
  unfold keys_of, column_key.
  induction enum_fields as [|f fs IH]; simpl; [reflexivity | now rewrite IH].
Qed.

(** X11. The schema query spans three tables, so a column name can come
    more than once: the options stored under a column name are those parsed
    from the last schema row with that name, a name that no schema row
    carries is absent, and the names stand in the order of their first
    occurrence. *)
Theorem dropdown_options_last_wins (enum_fields : list EnumField.t) (column : string) :
  dict_get String.eqb column (fetch_dropdown_options enum_fields)
  = last_value String.eqb column_key
      (fun field => parse_enum (EnumField.COLUMN_TYPE field)) column enum_fields
  /\ dict_keys (fetch_dropdown_options enum_fields)
     = first_seen String.eqb (map EnumField.COLUMN_NAME enum_fields)
  /\ (dict_get String.eqb column (fetch_dropdown_options enum_fields) = None
      <-> ~ In column (map EnumField.COLUMN_NAME enum_fields)).
Proof.
  assert (Hfold : fetch_dropdown_options enum_fields
                  = dict_fold String.eqb column_key
                      (fun field => parse_enum (EnumField.COLUMN_TYPE field))
                      enum_fields []) by reflexivity.
  assert (Hkeys : dict_keys (fetch_dropdown_options enum_fields)
                  = first_seen String.eqb (map EnumField.COLUMN_NAME enum_fields)).
  { now rewrite Hfold, (dict_fold_keys String.eqb_eq), keys_of_column_key. }
  split; [|split; [exact Hkeys|]].
  - rewrite Hfold, (dict_fold_get String.eqb_eq). simpl. apply match_option_id.
  - rewrite <- (first_seen_In String.eqb_eq), <- Hkeys.
    rewrite <- (existsb_eqb_In String.eqb_eq), <- dict_mem_keys, dict_mem_get.
    destruct (dict_get _ _ _); simpl; split; intro H;
      try discriminate; try reflexivity; now elim H.
Qed.

(** ** Connection settings from the compose file *)

Lemma get_db_config_of_environment (compose_data : yaml) (env : list (yaml * yaml)) :
  has_environment compose_data env ->
  get_db_config_from_compose compose_data
  = Ok {| DbConfig.host := YStr "localhost";
          DbConfig.user := setting "GUACAMOLE_USERNAME" "guacamole_user" env;
          DbConfig.password := setting "GUACAMOLE_PASSWORD" "password" env;
          DbConfig.database := setting "GUACAMOLE_DATABASE" "guacamole_db" env |}.
Proof.
  intros (top & services & db_service & -> & Hs & Hd & He).
  unfold get_db_config_from_compose, subscript, get, setting. simpl.
  rewrite Hs. simpl. rewrite Hd. simpl. rewrite He. simpl.
  destruct (yaml_lookup "GUACAMOLE_DATABASE" env),
    (yaml_lookup "GUACAMOLE_USERNAME" env),
    (yaml_lookup "GUACAMOLE_PASSWORD" env); reflexivity.
Qed.

(** How the three subscripts of lines 11-12 end. *)
Lemma environment_of_compose (compose_data : yaml) :
  (exists top services db_service v,
      compose_data = YMap top
      /\ yaml_lookup "services" top = Some (YMap services)
      /\ yaml_lookup "db" services = Some (YMap db_service)
      /\ yaml_lookup "environment" db_service = Some v
      /\ get_db_config_from_compose compose_data
         = bind (get v "GUACAMOLE_DATABASE" (YStr "guacamole_db")) (fun db_name =>
           bind (get v "GUACAMOLE_USERNAME" (YStr "guacamole_user")) (fun db_user =>
           bind (get v "GUACAMOLE_PASSWORD" (YStr "password")) (fun db_password =>
           Ok {| DbConfig.host := YStr "localhost";
                 DbConfig.user := db_user;
                 DbConfig.password := db_password;
                 DbConfig.database := db_name |}))))
  \/ get_db_config_from_compose compose_data = Raise TypeError
  \/ get_db_config_from_compose compose_data = Raise (KeyError "services")
  \/ get_db_config_from_compose compose_data = Raise (KeyError "db")
  \/ get_db_config_from_compose compose_data = Raise (KeyError "environment").
Proof.
  unfold get_db_config_from_compose.
  destruct compose_data as [| | | | |top|]; simpl; try tauto.
  destruct (yaml_lookup "services" top) as [services|] eqn:Hs; simpl; [|tauto].
  destruct services as [| | | | |services|]; simpl; try tauto.
  destruct (yaml_lookup "db" services) as [db_service|] eqn:Hd; simpl; [|tauto].
  destruct db_service as [| | | | |db_service|]; simpl; try tauto.
  destruct (yaml_lookup "environment" db_service) as [v|] eqn:He; simpl; [|tauto].
  left. exists top, services, db_service, v. auto.
Qed.

Lemma get_raises_only_AttributeError (v : yaml) (k : string) (default : yaml) (e : exn) :
  get v k default = Raise e -> e = AttributeError /\ forall env, v <> YMap env.
Proof.
  unfold get. destruct v; try (intro H; injection H as <-; split; [reflexivity | discriminate]).
  destruct (yaml_lookup k entries); discriminate.
Qed.

Lemma get_of_mapping (env : list (yaml * yaml)) (k : string) (default : yaml) :
  exists x, get (YMap env) k default = Ok x.
Proof. unfold get. destruct (yaml_lookup k env); eauto. Qed.

(** X12. The settings are found exactly when the compose file is a
    mapping whose [services] entry is a mapping whose [db] entry is a
    mapping whose [environment] entry is a mapping.  The host is then always
    ["localhost"], and user, password and database are the environment
    entries GUACAMOLE_USERNAME, GUACAMOLE_PASSWORD and GUACAMOLE_DATABASE
    when the environment has them (an entry that is present but null stays
    null), and ["guacamole_user"], ["password"] and ["guacamole_db"] when it
    has not. *)
Theorem compose_settings (compose_data : yaml) :
  (forall env,
      has_environment compose_data env ->
      get_db_config_from_compose compose_data
      = Ok {| DbConfig.host := YStr "localhost";
              DbConfig.user := setting "GUACAMOLE_USERNAME" "guacamole_user" env;
              DbConfig.password := setting "GUACAMOLE_PASSWORD" "password" env;
              DbConfig.database := setting "GUACAMOLE_DATABASE" "guacamole_db" env |})
  /\ (forall db_config,
         get_db_config_from_compose compose_data = Ok db_config ->
         exists env, has_environment compose_data env).
Proof.
  split; [apply get_db_config_of_environment|].
  intros db_config Hok.
  destruct (environment_of_compose compose_data)
    as [(top & services & db_service & v & Hc & Hs & Hd & He & Hrun) | Herr].
  - destruct v as [| | | | |env|];
      try (rewrite Hrun in Hok; discriminate Hok).
    exists env, top, services, db_service. auto.
  - destruct Herr as [H | [H | [H | H]]]; rewrite H in Hok; discriminate Hok.
Qed.

Lemma compose_settings_witness :
  get_db_config_from_compose compose_mapping
  = Ok {| DbConfig.host := YStr "localhost";
          DbConfig.user := YStr "guacamole_user";
          DbConfig.password := YNull;
          DbConfig.database := YStr "kcm" |}.
Proof.
  refine (proj1 (compose_settings compose_mapping) compose_environment _).
  eexists _, _, _. repeat split; reflexivity.
Defined.

(** X13. When the settings are not found, the function raises and never
    falls back to defaults.  It raises AttributeError exactly when the
    [environment] entry exists but is not a mapping (the list form of a
    compose environment, or an empty one); a KeyError names [services], [db]
    or [environment], never one of the GUACAMOLE keys. *)
Theorem compose_failures (compose_data : yaml) :
  (get_db_config_from_compose compose_data = Raise AttributeError
   <-> exists top services db_service v,
         compose_data = YMap top
         /\ yaml_lookup "services" top = Some (YMap services)
         /\ yaml_lookup "db" services = Some (YMap db_service)
         /\ yaml_lookup "environment" db_service = Some v
         /\ forall env, v <> YMap env)
  /\ (forall k,
         get_db_config_from_compose compose_data = Raise (KeyError k) ->
         k = "services" \/ k = "db" \/ k = "environment").
Proof.
  destruct (environment_of_compose compose_data)
    as [(top & services & db_service & v & Hc & Hs & Hd & He & Hrun) | Herr].
  - split.
    + split.
      * intro Hraise. exists top, services, db_service, v.
        repeat (split; [assumption|]).
        intros env ->. rewrite Hrun in Hraise.
        destruct (get_of_mapping env "GUACAMOLE_DATABASE" (YStr "guacamole_db")) as [a Ha].
        destruct (get_of_mapping env "GUACAMOLE_USERNAME" (YStr "guacamole_user")) as [b Hb].
        destruct (get_of_mapping env "GUACAMOLE_PASSWORD" (YStr "password")) as [c Hc'].
        rewrite Ha, Hb, Hc' in Hraise. discriminate Hraise.
      * intros (top' & services' & db' & v' & Hc' & Hs' & Hd' & He' & Hv).
        rewrite Hc in Hc'. injection Hc' as <-.
        rewrite Hs in Hs'. injection Hs' as <-.
        rewrite Hd in Hd'. injection Hd' as <-.
        rewrite He in He'. injection He' as <-.
        rewrite Hrun. destruct v; try reflexivity. now elim (Hv entries).
    + intros k Hraise. rewrite Hrun in Hraise. exfalso.
      destruct v; try discriminate Hraise.
      destruct (get_of_mapping entries "GUACAMOLE_DATABASE" (YStr "guacamole_db")) as [a Ha].
      destruct (get_of_mapping entries "GUACAMOLE_USERNAME" (YStr "guacamole_user")) as [b Hb].
      destruct (get_of_mapping entries "GUACAMOLE_PASSWORD" (YStr "password")) as [c Hc'].
      rewrite Ha, Hb, Hc' in Hraise. discriminate Hraise.
  - split.
    + split.
      * intro Hraise.
        destruct Herr as [H | [H | [H | H]]]; rewrite H in Hraise; discriminate Hraise.
      * intros (top & services & db_service & v & -> & Hs & Hd & He & Hv).
        unfold get_db_config_from_compose, subscript. simpl.
        rewrite Hs. simpl. rewrite Hd. simpl. rewrite He. simpl.
        destruct v; try reflexivity. now elim (Hv entries).
    + intros k Hraise.
      destruct Herr as [H | [H | [H | H]]]; rewrite H in Hraise;
        try discriminate Hraise; injection Hraise as <-; auto.
Qed.

Lemma compose_failures_witness :
  get_db_config_from_compose compose_list = Raise AttributeError
  /\ get_db_config_from_compose compose_without_db = Raise (KeyError "db").
Proof.
  split.
  - apply (proj1 (compose_failures compose_list)).
    eexists _, _, _, _. repeat split; try reflexivity. discriminate.
  - reflexivity.
Defined.
